(** * ext4_crypt: per-directory encryption policies

    A shallow embedding of [ext4_utils/ext4_crypt.cpp] and the properties
    of its three entry points ([e4crypt_policy_set], [e4crypt_policy_get],
    [e4crypt_policy_ensure]) and of its two helpers ([policy_to_hex],
    [is_dir_empty]).

    The C++ code talks to the operating system through [access], [open],
    [close], [opendir], [readdir], [closedir] and [ioctl], and to the log
    through [LOG] and [PLOG].  The embedding threads an explicit [world]
    (file system, descriptor table, directory streams, and the trace of
    every system call and log line) through a small state monad whose
    failure case stands for a crash of the process. *)

From Stdlib Require Import Strings.Byte Strings.Ascii ZArith.
From stdpp Require Import gmap strings list fin_maps pretty.

Open Scope Z_scope.

(** ** Characters and buffers *)

Module CTypes.

(** A C [char] is one byte.  Integer promotion is modelled for a signed
    [char] (the x86 ABI); [int_of_uchar] is the promotion of an unsigned
    one (the ARM ABI). *)
Definition char : Type := byte.

Definition int_of_uchar (c : char) : Z := Z.of_N (Byte.to_N c).

Definition int_of_char (c : char) : Z :=
  if int_of_uchar c <? 128 then int_of_uchar c else int_of_uchar c - 256.

Definition char_of_int (z : Z) : char :=
  match Byte.of_N (Z.to_N (z mod 256)) with
  | Some b => b
  | None => x00
  end.

#[global] Instance char_eq_dec : EqDecision char := Byte.byte_eq_dec.

(** [memcpy dst src n]: the first [n] bytes of [dst] become the first [n]
    bytes of [src]. *)
Definition memcpy {A} (dst src : list A) (n : nat) : list A :=
  take n src ++ drop n dst.

(** [memcmp a b n]: compares the first [n] bytes as unsigned chars and
    returns the difference of the first pair that differs, 0 if none. *)
Fixpoint memcmp (a b : list char) (n : nat) : Z :=
  match n with
  | O => 0
  | S n' =>
      match a, b with
      | x :: a', y :: b' =>
          if decide (x = y) then memcmp a' b' n'
          else int_of_uchar x - int_of_uchar y
      | _, _ => 0
      end
  end.

(** The local arrays of the C code are uninitialised; their first
    contents are never read, and the model starts them at zero. *)
Definition uninit {A} (n : nat) (a : A) : list A := replicate n a.

(** [s[i]] on a string literal. *)
Definition str_index (s : string) (i : Z) : ascii :=
  match String.get (Z.to_nat i) s with
  | Some c => c
  | None => Ascii.zero
  end.

(** The C string held in a [char] buffer: the characters before the
    first NUL. *)
Fixpoint c_str (buf : list ascii) : string :=
  match buf with
  | [] => EmptyString
  | c :: rest =>
      if Ascii.eqb c Ascii.zero then EmptyString else String c (c_str rest)
  end.

(** [strcmp] of two C strings without embedded NUL. *)
Definition strcmp (a b : string) : Z :=
  match String.compare a b with
  | Eq => 0
  | Lt => -1
  | Gt => 1
  end.

End CTypes.
Import CTypes.

(** ** The policy record and the constants of the source *)

Definition EXT4_KEY_DESCRIPTOR_SIZE : nat := 8.
Definition EXT4_KEY_DESCRIPTOR_SIZE_HEX : nat := 17.

Record ext4_encryption_policy := mk_policy {
  version : char;
  contents_encryption_mode : char;
  filenames_encryption_mode : char;
  flags : char;
  master_key_descriptor : list char
}.

#[global] Instance ext4_encryption_policy_eq_dec :
  EqDecision ext4_encryption_policy.
Proof. solve_decision. Defined.

Definition EXT4_ENCRYPTION_MODE_AES_256_XTS : Z := 1.
Definition EXT4_ENCRYPTION_MODE_AES_256_CTS : Z := 4.

Definition HEX_LOOKUP : string := "0123456789abcdef".

(** ** PolicyCodec: [policy_to_hex] *)

(** One iteration of the loop body: reads [policy[i]], writes [hex[j]] and
    [hex[j+1]], and returns the new [j]. *)
Definition policy_to_hex_step (policy : list char) (st : nat * list ascii)
    (i : nat) : nat * list ascii :=
  let '(j, hex) := st in
  let c := int_of_char (nth i policy x00) in
  let hex := <[j := str_index HEX_LOOKUP (Z.shiftr (Z.land c 240) 4)]> hex in
  let hex := <[S j := str_index HEX_LOOKUP (Z.land c 15)]> hex in
  (S (S j), hex).

Definition policy_to_hex (policy : list char) (hex : list ascii) : list ascii :=
  let '(_, hex) :=
    fold_left (policy_to_hex_step policy) (seq 0 EXT4_KEY_DESCRIPTOR_SIZE)
              (0%nat, hex) in
  <[(EXT4_KEY_DESCRIPTOR_SIZE_HEX - 1)%nat := Ascii.zero]> hex.

(** ** The operating system as seen by the code

    Nothing in this module is code of [ext4_crypt.cpp]: it is the
    environment the code runs in.  A directory is summarised by the answers
    the kernel gives about it, descriptors and directory streams live in
    two tables, and every call leaves an [event] in the trace. *)

Module OS.

(** Constants of [<unistd.h>] and [<fcntl.h>] (asm-generic values); the
    model records them in the trace and does not interpret them. *)
Definition W_OK : Z := 2.
Definition O_DIRECTORY : Z := 65536.
Definition O_NOFOLLOW : Z := 131072.
Definition O_CLOEXEC : Z := 524288.

Inductive ioctl_request :=
| EXT4_IOC_SET_ENCRYPTION_POLICY
| EXT4_IOC_GET_ENCRYPTION_POLICY.

Inductive severity := INFO | WARNING | ERROR.

(** One entry per system call or log line, in program order.  [EvLog]
    is a [LOG] line; [EvPLog] is a [PLOG] line, to which the logger
    appends the text of [errno]. *)
Inductive event :=
| EvAccess (path : string) (mode : Z) (ret : Z)
| EvOpen (path : string) (oflags : Z) (ret : Z)
| EvClose (fd : Z)
| EvOpendir (path : string) (ret : option Z)
| EvReaddir (dir : Z) (d_name : option string)
| EvClosedir (dir : Z)
| EvIoctl (fd : Z) (req : ioctl_request) (arg : ext4_encryption_policy)
          (ret : Z)
| EvLog (sev : severity) (msg : string)
| EvPLog (sev : severity) (msg : string).

(** What the kernel knows about one directory: the answers it gives to
    [access(W_OK)], [open] and [opendir], the names [readdir] lists,
    whether the file system supports encryption policies, and the policy
    recorded for the directory, if any. *)
Record inode := mk_inode {
  i_writable : bool;
  i_openable : bool;
  i_listable : bool;
  i_entries : list string;
  i_crypt : bool;
  i_policy : option ext4_encryption_policy
}.

Record world := mk_world {
  fs : gmap string inode;
  fds : gmap Z string;
  streams : gmap Z (list string);
  trace : list event
}.

Definition emit (e : event) (w : world) : world :=
  mk_world (fs w) (fds w) (streams w) (trace w ++ [e]).

Definition set_fs (f : gmap string inode) (w : world) : world :=
  mk_world f (fds w) (streams w) (trace w).

Definition set_fds (t : gmap Z string) (w : world) : world :=
  mk_world (fs w) t (streams w) (trace w).

Definition set_streams (s : gmap Z (list string)) (w : world) : world :=
  mk_world (fs w) (fds w) s (trace w).

(** The lowest non-negative number that is not in use, as POSIX
    allocates descriptors. *)
Fixpoint lowest_free_from (fuel : nat) (n : Z) (used : gset Z) : Z :=
  match fuel with
  | O => n
  | S fuel' =>
      if decide (n ∈ used) then lowest_free_from fuel' (n + 1) used else n
  end.

Definition lowest_free (used : gset Z) : Z :=
  lowest_free_from (size used) 0 used.

(** *** The monad: state passing over [world]

    A computation returns its result, or [None] when the process
    crashes, together with the world it leaves behind. *)

Definition M (A : Type) : Type := world -> option A * world.

Definition ret {A} (a : A) : M A := fun w => (Some a, w).

Definition bind {A B} (m : M A) (k : A -> M B) : M B :=
  fun w => match m w with
           | (Some a, w') => k a w'
           | (None, w') => (None, w')
           end.

Definition crash {A} : M A := fun w => (None, w).

Declare Scope os_scope.
Delimit Scope os_scope with os.
Notation "x <- m ;; k" := (bind m (fun x => k))
  (at level 100, m at next level, right associativity) : os_scope.
Notation "m ;;; k" := (bind m (fun _ => k))
  (at level 100, right associativity) : os_scope.

(** *** System calls *)

Definition access (path : string) (mode : Z) : M Z := fun w =>
  let r := match fs w !! path with
           | Some ino => if i_writable ino then 0 else -1
           | None => -1
           end in
  (Some r, emit (EvAccess path mode r) w).

Definition open (path : string) (oflags : Z) : M Z := fun w =>
  let fail := (Some (-1), emit (EvOpen path oflags (-1)) w) in
  match fs w !! path with
  | Some ino =>
      if i_openable ino then
        let fd := lowest_free (dom (fds w)) in
        (Some fd,
         emit (EvOpen path oflags fd) (set_fds (<[fd := path]> (fds w)) w))
      else fail
  | None => fail
  end.

Definition close (fd : Z) : M Z := fun w =>
  match fds w !! fd with
  | Some _ => (Some 0, emit (EvClose fd) (set_fds (delete fd (fds w)) w))
  | None => (Some (-1), emit (EvClose fd) w)
  end.

(** [opendir] returns [None] for a NULL stream. *)
Definition opendir (path : string) : M (option Z) := fun w =>
  let fail := (Some None, emit (EvOpendir path None) w) in
  match fs w !! path with
  | Some ino =>
      if i_listable ino then
        let d := lowest_free (dom (streams w)) in
        (Some (Some d),
         emit (EvOpendir path (Some d))
              (set_streams (<[d := i_entries ino]> (streams w)) w))
      else fail
  | None => fail
  end.

(** [readdir] on a NULL or closed stream dereferences an invalid
    pointer: the process crashes. *)
Definition readdir (dir : option Z) : M (option string) := fun w =>
  match dir with
  | None => (None, w)
  | Some d =>
      match streams w !! d with
      | None => (None, w)
      | Some [] => (Some None, emit (EvReaddir d None) w)
      | Some (name :: rest) =>
          (Some (Some name),
           emit (EvReaddir d (Some name))
                (set_streams (<[d := rest]> (streams w)) w))
      end
  end.

(** [closedir(NULL)] fails with [EINVAL]. *)
Definition closedir (dir : option Z) : M Z := fun w =>
  match dir with
  | None => (Some (-1), w)
  | Some d =>
      match streams w !! d with
      | Some _ =>
          (Some 0, emit (EvClosedir d) (set_streams (delete d (streams w)) w))
      | None => (None, w)
      end
  end.

(** *** The kernel side of the two control requests, after ext4

    [ext4_empty_dir]: a directory is empty for the kernel when it lists
    nothing but the two dot entries. *)
Definition ext4_empty_dir (ino : inode) : bool :=
  forallb (fun n => bool_decide (n = "." ∨ n = ".."))%string (i_entries ino).

Definition with_policy (eep : ext4_encryption_policy) (ino : inode) : inode :=
  mk_inode (i_writable ino) (i_openable ino) (i_listable ino)
           (i_entries ino) (i_crypt ino) (Some eep).

(** [ext4_process_policy]: a file system without encryption support
    refuses every policy, and a policy of another version is refused; a
    directory without a policy takes the new one when it is empty; a
    directory with a policy accepts the same policy again and refuses any
    other. *)
Definition ext4_process_policy (ino : inode) (eep : ext4_encryption_policy)
    : option inode :=
  if negb (i_crypt ino) then None
  else if negb (bool_decide (version eep = x00)) then None
  else match i_policy ino with
       | None => if ext4_empty_dir ino then Some (with_policy eep ino) else None
       | Some old => if decide (old = eep) then Some ino else None
       end.

Definition ext4_get_policy (ino : inode) : option ext4_encryption_policy :=
  if i_crypt ino then i_policy ino else None.

(** [ioctl(fd, req, &eep)]: the result and the record after the call. *)
Definition ioctl (fd : Z) (req : ioctl_request) (eep : ext4_encryption_policy)
    : M (Z * ext4_encryption_policy) := fun w =>
  let fail := (Some (-1, eep), emit (EvIoctl fd req eep (-1)) w) in
  match fds w !! fd with
  | None => fail
  | Some path =>
      match fs w !! path with
      | None => fail
      | Some ino =>
          match req with
          | EXT4_IOC_SET_ENCRYPTION_POLICY =>
              match ext4_process_policy ino eep with
              | Some ino' =>
                  (Some (0, eep),
                   emit (EvIoctl fd req eep 0)
                        (set_fs (<[path := ino']> (fs w)) w))
              | None => fail
              end
          | EXT4_IOC_GET_ENCRYPTION_POLICY =>
              match ext4_get_policy ino with
              | Some p => (Some (0, p), emit (EvIoctl fd req eep 0) w)
              | None => fail
              end
          end
      end
  end.

(** *** Logging *)

Definition LOG (sev : severity) (msg : string) : M unit := fun w =>
  (Some tt, emit (EvLog sev msg) w).

Definition PLOG (sev : severity) (msg : string) : M unit := fun w =>
  (Some tt, emit (EvPLog sev msg) w).

End OS.
Import OS.
Open Scope os_scope.

(** ** DirectoryGuard: [is_dir_empty] *)

(** The [while ((d = readdir(dir)) != NULL)] loop with its counter [n].
    [fuel] bounds the number of [readdir] calls; running out of it is
    reported as a crash, and [is_dir_empty_loop_run] shows that one more
    than the number of entries left in the stream is always enough. *)
Fixpoint is_dir_empty_loop (fuel : nat) (dir : option Z) (n : Z) : M Z :=
  match fuel with
  | O => crash
  | S fuel' =>
      d <- readdir dir ;;
      match d with
      | None => ret n
      | Some d_name =>
          if strcmp d_name "lost+found" =? 0 then
            (* Skip lost+found directory *)
            is_dir_empty_loop fuel' dir n
          else if n + 1 >? 2 then ret (n + 1)
          else is_dir_empty_loop fuel' dir (n + 1)
      end
  end.

(** Entries the stream [dir] has not yet returned. *)
Definition pending (dir : option Z) (w : world) : list string :=
  match dir with
  | Some d => default [] (streams w !! d)
  | None => []
  end.

Definition is_dir_empty (dirname : string) : M Z :=
  dir <- opendir dirname ;;
  n <- (fun w => is_dir_empty_loop (S (length (pending dir w))) dir 0 w) ;;
  closedir dir ;;;
  ret (if n <=? 2 then 1 else 0).

(** ** PolicyTransport: [e4crypt_policy_set] and [e4crypt_policy_get] *)

Definition dir_oflags : Z := Z.lor (Z.lor O_DIRECTORY O_NOFOLLOW) O_CLOEXEC.

Definition e4crypt_policy_set (directory : string) (policy : list char)
    (policy_length : N) : M Z :=
  if negb (policy_length =? N.of_nat EXT4_KEY_DESCRIPTOR_SIZE)%N then
    LOG ERROR ("Policy wrong length: " +:+ pretty policy_length) ;;;
    ret (-1)
  else
  a <- access directory W_OK ;;
  if negb (a =? 0) then
    PLOG ERROR ("Failed to access directory " +:+ directory) ;;;
    ret (-1)
  else
  fd <- open directory dir_oflags ;;
  if fd =? -1 then
    PLOG ERROR ("Failed to open directory " +:+ directory) ;;;
    ret (-1)
  else
  e <- is_dir_empty directory ;;
  if e =? 0 then
    LOG ERROR ("Can only set policy on an empty directory " +:+ directory) ;;;
    ret (-1)
  else
  let eep :=
    {| version := char_of_int 0;
       contents_encryption_mode := char_of_int EXT4_ENCRYPTION_MODE_AES_256_XTS;
       filenames_encryption_mode := char_of_int EXT4_ENCRYPTION_MODE_AES_256_CTS;
       flags := char_of_int 0;
       master_key_descriptor :=
         memcpy (uninit EXT4_KEY_DESCRIPTOR_SIZE x00) policy
                EXT4_KEY_DESCRIPTOR_SIZE |} in
  r <- ioctl fd EXT4_IOC_SET_ENCRYPTION_POLICY eep ;;
  if negb (r.1 =? 0) then
    PLOG ERROR ("Failed to set encryption policy for " +:+ directory) ;;;
    close fd ;;;
    ret (-1)
  else
  close fd ;;;
  let policy_hex :=
    policy_to_hex policy (uninit EXT4_KEY_DESCRIPTOR_SIZE_HEX Ascii.zero) in
  LOG INFO ("Policy for " +:+ directory +:+ " set to " +:+ c_str policy_hex) ;;;
  ret 0.

(** [memset(&eep, 0, sizeof(ext4_encryption_policy))]. *)
Definition zero_policy : ext4_encryption_policy :=
  {| version := x00; contents_encryption_mode := x00;
     filenames_encryption_mode := x00; flags := x00;
     master_key_descriptor := replicate EXT4_KEY_DESCRIPTOR_SIZE x00 |}.

(** The result pairs the return value with the caller's [policy] buffer
    after the call. *)
Definition e4crypt_policy_get (directory : string) (policy : list char)
    (policy_length : N) : M (Z * list char) :=
  if negb (policy_length =? N.of_nat EXT4_KEY_DESCRIPTOR_SIZE)%N then
    LOG ERROR ("Policy wrong length: " +:+ pretty policy_length) ;;;
    ret (-1, policy)
  else
  a <- access directory W_OK ;;
  if negb (a =? 0) then
    PLOG ERROR ("Failed to access directory " +:+ directory) ;;;
    ret (-1, policy)
  else
  fd <- open directory dir_oflags ;;
  if fd =? -1 then
    PLOG ERROR ("Failed to open directory " +:+ directory) ;;;
    ret (-1, policy)
  else
  r <- ioctl fd EXT4_IOC_GET_ENCRYPTION_POLICY zero_policy ;;
  let eep := r.2 in
  if negb (r.1 =? 0) then
    PLOG WARNING ("Failed to get encryption policy for " +:+ directory) ;;;
    close fd ;;;
    ret (-1, policy)
  else
  close fd ;;;
  if (int_of_char (version eep) =? 0)
     && (int_of_char (contents_encryption_mode eep)
           =? EXT4_ENCRYPTION_MODE_AES_256_XTS)
     && (int_of_char (filenames_encryption_mode eep)
           =? EXT4_ENCRYPTION_MODE_AES_256_CTS)
     && (int_of_char (flags eep) =? 0)
  then
    ret (0, memcpy policy (master_key_descriptor eep) EXT4_KEY_DESCRIPTOR_SIZE)
  else
    LOG ERROR ("Failed to find matching encryption policy for " +:+ directory) ;;;
    ret (-1, policy).

(** ** PolicyReconciler: [e4crypt_policy_ensure] *)

Definition e4crypt_policy_ensure (directory : string) (policy : list char)
    (policy_length : N) : M Z :=
  if negb (policy_length =? N.of_nat EXT4_KEY_DESCRIPTOR_SIZE)%N then
    LOG ERROR ("Policy wrong length: " +:+ pretty policy_length) ;;;
    ret (-1)
  else
  g <- e4crypt_policy_get directory (uninit EXT4_KEY_DESCRIPTOR_SIZE x00)
         (N.of_nat EXT4_KEY_DESCRIPTOR_SIZE) ;;
  let existing_policy := g.2 in
  if g.1 =? 0 then
    let policy_hex :=
      policy_to_hex policy (uninit EXT4_KEY_DESCRIPTOR_SIZE_HEX Ascii.zero) in
    let existing_policy_hex :=
      policy_to_hex existing_policy
                    (uninit EXT4_KEY_DESCRIPTOR_SIZE_HEX Ascii.zero) in
    if memcmp policy existing_policy EXT4_KEY_DESCRIPTOR_SIZE =? 0 then
      LOG INFO ("Found policy " +:+ c_str existing_policy_hex +:+ " at "
                +:+ directory +:+ " which matches expected value") ;;;
      ret 0
    else
      LOG ERROR ("Found policy " +:+ c_str existing_policy_hex +:+ " at "
                 +:+ directory +:+ " which doesn't match expected value "
                 +:+ c_str policy_hex) ;;;
      ret (-1)
  else
    e4crypt_policy_set directory policy policy_length.

(** ** Running the code on small worlds *)

Module Examples.

Definition fresh_dir : inode :=
  mk_inode true true true ["."; ".."]%string true None.

Definition busy_dir : inode :=
  mk_inode true true true ["."; ".."; "file"]%string true None.

Definition world_of (path : string) (ino : inode) : world :=
  mk_world {[ path := ino ]} ∅ ∅ [].

Definition recovered_dir : inode :=
  mk_inode true true true ["."; "lost+found"; ".."]%string true None.

Definition readonly_dir : inode :=
  mk_inode false true true ["."; ".."]%string true None.

(** A directory whose policy was written by another tool, with a
    contents mode this code does not use. *)
Definition foreign_policy : ext4_encryption_policy :=
  mk_policy x00 x02 x04 x00 [x00; x11; x22; x33; x44; x55; x66; x77].

Definition foreign_dir : inode :=
  mk_inode true true true ["."; ".."]%string true (Some foreign_policy).

(** A directory that already carries the policy of [D1]. *)
Definition keyed_dir : inode :=
  mk_inode true true true ["."; ".."]%string true
           (Some (mk_policy x00 x01 x04 x00
                            [x00; x11; x22; x33; x44; x55; x66; x77])).

(** A directory [opendir] fails on. *)
Definition unlistable_dir : inode :=
  mk_inode true true false ["."; ".."]%string true None.

(** A listing without dot entries, and one with many names. *)
Definition dotless_dir : inode :=
  mk_inode true true true ["a"; "lost+found"; "b"]%string true None.

Definition crowded_dir : inode :=
  mk_inode true true true
           ["."; ".."; "a"; "b"; "c"; "d"; "e"; "f"]%string true None.

Definition D1 : list char := [x00; x11; x22; x33; x44; x55; x66; x77].
Definition D2 : list char := [x80; x91; xa2; xb3; xc4; xd5; xe6; xff].

End Examples.

(** ** Vocabulary of the statements *)

(** The lowercase hexadecimal digit of a nibble, by arithmetic on character
    codes: '0' is 48 and 'a' is 97. *)
Definition hex_digit (n : N) : ascii :=
  if (n <? 10)%N then ascii_of_N (48 + n) else ascii_of_N (87 + n).

Definition hi_nibble (c : char) : N := (Byte.to_N c / 16)%N.
Definition lo_nibble (c : char) : N := (Byte.to_N c mod 16)%N.

(** Two digits per byte, high nibble first. *)
Definition hex_of (policy : list char) : list ascii :=
  flat_map (fun c => [hex_digit (hi_nibble c); hex_digit (lo_nibble c)]) policy.

Definition lowercase_hex : list ascii :=
  String.list_ascii_of_string "0123456789abcdef".

(** The records handed to the kernel by a set request, in order. *)
Definition kernel_writes (evs : list event) : list ext4_encryption_policy :=
  omap (fun e => match e with
                 | EvIoctl _ EXT4_IOC_SET_ENCRYPTION_POLICY eep _ => Some eep
                 | _ => None
                 end) evs.

(** The get requests of a trace, by descriptor number. *)
Definition kernel_reads (evs : list event) : list Z :=
  omap (fun e => match e with
                 | EvIoctl fd EXT4_IOC_GET_ENCRYPTION_POLICY _ _ => Some fd
                 | _ => None
                 end) evs.

(** The fixed version, modes and flags. *)
Definition fixed_tuple (p : ext4_encryption_policy) : Prop :=
  version p = x00 /\ contents_encryption_mode p = x01 /\
  filenames_encryption_mode p = x04 /\ flags p = x00.

#[global] Instance fixed_tuple_dec p : Decision (fixed_tuple p).
Proof. unfold fixed_tuple. apply _. Defined.

(** The record [e4crypt_policy_set] builds for an 8-byte descriptor. *)
Definition policy_record (descriptor : list char) : ext4_encryption_policy :=
  mk_policy x00 x01 x04 x00 descriptor.

(** A listing as [readdir] produces it for a directory: every name once,
    the two dot entries among them. *)
Definition listing (names : list string) : Prop :=
  NoDup names /\ "."%string ∈ names /\ ".."%string ∈ names.

Definition reserved (name : string) : Prop :=
  name = "."%string \/ name = ".."%string \/ name = "lost+found"%string.

(** [establishes R m]: [R] relates the world before [m] to the world after
    it, on every run, the crashing ones included. *)
Definition establishes {A} (R : relation world) (m : M A) : Prop :=
  forall w, R w (m w).2.

(** The trace grew, and only by events that satisfy [Q]. *)
Definition appends (Q : event -> Prop) : relation world := fun w w' =>
  exists evs, trace w' = trace w ++ evs /\ Forall Q evs.

(** The kernel's state of every directory is as it was. *)
Definition same_fs : relation world := fun w w' => fs w' = fs w.

(** An event that is not a set request, or whose record satisfies [P]. *)
Definition write_of (P : ext4_encryption_policy -> Prop) (e : event) : Prop :=
  match e with
  | EvIoctl _ EXT4_IOC_SET_ENCRYPTION_POLICY eep _ => P eep
  | _ => True
  end.

(** What [e4crypt_policy_get] answers once [access] and [open] have let it
    through: the value, and the caller's buffer after the call. *)
Definition get_answer (ino : inode) (policy : list char) : Z * list char :=
  match ext4_get_policy ino with
  | Some p =>
      if bool_decide (fixed_tuple p)
      then (0, memcpy policy (master_key_descriptor p) EXT4_KEY_DESCRIPTOR_SIZE)
      else (-1, policy)
  | None => (-1, policy)
  end.

(** The names the emptiness check counts: all but the reserved recovery
    entry. *)
Definition counted (names : list string) : list string :=
  filter (fun name => name <> "lost+found"%string) names.

(** The answers of [access(W_OK)] and [open] for a path, as booleans. *)
Definition writable (w : world) (path : string) : bool :=
  match fs w !! path with
  | Some ino => i_writable ino
  | None => false
  end.

Definition openable (w : world) (path : string) : bool :=
  match fs w !! path with
  | Some ino => i_openable ino
  | None => false
  end.

(** The record [e4crypt_policy_set] hands to the kernel for [policy]. *)
Definition set_request (policy : list char) : ext4_encryption_policy :=
  policy_record (memcpy (uninit EXT4_KEY_DESCRIPTOR_SIZE x00) policy
                        EXT4_KEY_DESCRIPTOR_SIZE).

(** The answer of [e4crypt_policy_get] as a function of the world it
    starts in. *)
Definition get_result (w : world) (directory : string) (policy : list char)
    (policy_length : N) : Z * list char :=
  if negb (policy_length =? N.of_nat EXT4_KEY_DESCRIPTOR_SIZE)%N then (-1, policy)
  else match fs w !! directory with
       | Some ino =>
           if i_writable ino && i_openable ino then get_answer ino policy
           else (-1, policy)
       | None => (-1, policy)
       end.

(** A directory that lists nothing but its dot entries and, possibly, the
    recovery entry. *)
Definition empty_directory (ino : inode) : Prop :=
  listing (i_entries ino)
  /\ (forall name, name ∈ i_entries ino -> reserved name).

(** The two log lines of the comparison in [e4crypt_policy_ensure]. *)
Definition matches_line (directory : string) (existing_policy : list char)
    : event :=
  EvLog INFO ("Found policy "
              +:+ c_str (policy_to_hex existing_policy (uninit 17 Ascii.zero))
              +:+ " at " +:+ directory +:+ " which matches expected value").

Definition conflict_line (directory : string)
    (existing_policy policy : list char) : event :=
  EvLog ERROR ("Found policy "
               +:+ c_str (policy_to_hex existing_policy (uninit 17 Ascii.zero))
               +:+ " at " +:+ directory
               +:+ " which doesn't match expected value "
               +:+ c_str (policy_to_hex policy (uninit 17 Ascii.zero))).

(** ** Vocabulary of the further properties *)

(** The ways a call of [e4crypt_policy_set] on [w] can end: with which
    result, and in which world.  [None] is a crash. *)
Inductive set_outcome (w : world) (directory : string) (policy : list char)
  : option Z -> world -> Prop :=
| SetEarly w' :
    fs w' = fs w -> fds w' = fds w -> streams w' = streams w ->
    kernel_writes (trace w') = kernel_writes (trace w) ->
    set_outcome w directory policy (Some (-1)) w'
| SetCrash ino w' :
    fs w !! directory = Some ino -> i_listable ino = false ->
    fs w' = fs w ->
    fds w' = <[lowest_free (dom (fds w)) := directory]> (fds w) ->
    kernel_writes (trace w') = kernel_writes (trace w) ->
    set_outcome w directory policy None w'
| SetNotEmpty ino w' :
    fs w !! directory = Some ino ->
    (2 < length (counted (i_entries ino)))%nat ->
    fs w' = fs w ->
    fds w' = <[lowest_free (dom (fds w)) := directory]> (fds w) ->
    kernel_writes (trace w') = kernel_writes (trace w) ->
    set_outcome w directory policy (Some (-1)) w'
| SetRefused ino w' :
    fs w !! directory = Some ino ->
    (length (counted (i_entries ino)) <= 2)%nat ->
    ext4_process_policy ino (set_request policy) = None ->
    fs w' = fs w -> fds w' = fds w -> streams w' = streams w ->
    kernel_writes (trace w') = kernel_writes (trace w) ++ [set_request policy] ->
    set_outcome w directory policy (Some (-1)) w'
| SetApplied ino ino' w' :
    fs w !! directory = Some ino ->
    i_writable ino = true -> i_openable ino = true ->
    (length (counted (i_entries ino)) <= 2)%nat ->
    ext4_process_policy ino (set_request policy) = Some ino' ->
    fs w' = <[directory := ino']> (fs w) ->
    fds w' = fds w -> streams w' = streams w ->
    kernel_writes (trace w') = kernel_writes (trace w) ++ [set_request policy] ->
    set_outcome w directory policy (Some 0) w'.

(** Reading a lowercase hexadecimal string back: the value of a digit, and
    one byte per pair of digits. *)
Definition unhex_digit (c : ascii) : N :=
  let n := N_of_ascii c in if (n <? 58)%N then (n - 48)%N else (n - 87)%N.

Fixpoint unhex (l : list ascii) : list char :=
  match l with
  | hi :: lo :: rest =>
      char_of_int (Z.of_N (16 * unhex_digit hi + unhex_digit lo)) :: unhex rest
  | _ => []
  end.

(** The records of the kernel hold 8-byte descriptors, as the packed
    struct does. *)
Definition descriptor_sized (ino : inode) : Prop :=
  forall p, i_policy ino = Some p ->
            length (master_key_descriptor p) = EXT4_KEY_DESCRIPTOR_SIZE.

#[global] Instance readdir_event_dec (e : event) :
  Decision (match e with EvReaddir _ _ => True | _ => False end).
Proof. destruct e; apply _. Defined.

(** The number of [readdir] calls in a trace. *)
Definition readdir_calls (evs : list event) : nat :=
  length (filter (fun e => match e with EvReaddir _ _ => True | _ => False end)
                 evs).

(** A log line of severity [sev] among the events [evs], from [LOG] or
    from [PLOG]. *)
Definition logged (sev : severity) (evs : list event) : Prop :=
  exists msg, EvLog sev msg ∈ evs \/ EvPLog sev msg ∈ evs.

(** * Properties *)

(** ** Characters *)

Section CharFacts.

Lemma int_of_uchar_inj (x y : char) : int_of_uchar x = int_of_uchar y -> x = y.
Proof.
  unfold int_of_uchar. intros H. apply N2Z.inj in H.
  assert (Some x = Some y) as E by (rewrite <- !Byte.of_to_N; congruence).
  congruence.
Qed.

Lemma int_of_char_0 (c : char) : (int_of_char c =? 0) = bool_decide (c = x00).
Proof. destruct c; reflexivity. Qed.

Lemma int_of_char_1 (c : char) : (int_of_char c =? 1) = bool_decide (c = x01).
Proof. destruct c; reflexivity. Qed.

Lemma int_of_char_4 (c : char) : (int_of_char c =? 4) = bool_decide (c = x04).
Proof. destruct c; reflexivity. Qed.

Lemma memcmp_refl (a : list char) (n : nat) : memcmp a a n = 0.
Proof.
  revert a. induction n as [|n IH]; intros [|x a]; simpl; try reflexivity.
  rewrite decide_True by reflexivity. apply IH.
Qed.

Lemma memcmp_0_eq (n : nat) : forall a b : list char,
  length a = n -> length b = n -> memcmp a b n = 0 -> a = b.
Proof.
  induction n as [|n IH]; intros [|x a] [|y b] Ha Hb; simpl in *;
    try discriminate; try reflexivity.
  destruct (decide (x = y)) as [->|Hne].
  - intros H. f_equal. apply IH; [lia | lia | exact H].
  - intros H. exfalso. apply Hne, int_of_uchar_inj. lia.
Qed.

Lemma memcpy_all {A} (dst src : list A) (n : nat) :
  length src = n -> length dst = n -> memcpy dst src n = src.
Proof.
  intros Hs Hd. unfold memcpy.
  rewrite take_ge by lia. rewrite drop_ge by lia. apply app_nil_r.
Qed.

End CharFacts.

(** ** PolicyCodec *)

Section Codec.

Lemma hex_hi (c : char) :
  str_index HEX_LOOKUP (Z.shiftr (Z.land (int_of_char c) 240) 4)
  = hex_digit (hi_nibble c).
Proof. destruct c; reflexivity. Qed.

Lemma hex_lo (c : char) :
  str_index HEX_LOOKUP (Z.land (int_of_char c) 15) = hex_digit (lo_nibble c).
Proof. destruct c; reflexivity. Qed.

(** The promotion of an unsigned [char] selects the same digits. *)
Lemma hex_signedness (c : char) :
  Z.shiftr (Z.land (int_of_uchar c) 240) 4
    = Z.shiftr (Z.land (int_of_char c) 240) 4
  /\ Z.land (int_of_uchar c) 15 = Z.land (int_of_char c) 15.
Proof. destruct c; split; reflexivity. Qed.

Lemma policy_to_hex_eq (policy : list char) (hex : list ascii) :
  length policy = 8%nat -> length hex = 17%nat ->
  policy_to_hex policy hex = hex_of policy ++ [Ascii.zero].
Proof.
  intros Hp Hh.
  do 9 (destruct policy as [|? policy]; try discriminate).
  do 18 (destruct hex as [|? hex]; try discriminate).
  unfold policy_to_hex, policy_to_hex_step, hex_of. simpl.
  rewrite !hex_hi, !hex_lo. reflexivity.
Qed.

Lemma hex_digit_lower (n : N) : (n < 16)%N -> hex_digit n ∈ lowercase_hex.
Proof.
  intros H. apply list_elem_of_In.
  rewrite <- (N2Nat.id n).
  assert (N.to_nat n < 16)%nat as Hk by lia.
  clear H. generalize dependent (N.to_nat n). intros k Hk.
  do 16 (destruct k as [|k]; [vm_compute; tauto | ]). lia.
Qed.

Lemma hex_of_lower (policy : list char) :
  Forall (fun c => c ∈ lowercase_hex) (hex_of policy).
Proof.
  induction policy as [|c policy IH]; [constructor | ].
  unfold hex_of; simpl. fold (hex_of policy).
  constructor; [ | constructor; [ | exact IH]].
  - apply hex_digit_lower. unfold hi_nibble.
    apply N.Div0.div_lt_upper_bound. destruct c; vm_compute; reflexivity.
  - apply hex_digit_lower. unfold lo_nibble. apply N.mod_lt. discriminate.
Qed.

Lemma hex_of_lookup (policy : list char) (i : nat) (c : char) :
  policy !! i = Some c ->
  hex_of policy !! (2 * i)%nat = Some (hex_digit (hi_nibble c))
  /\ hex_of policy !! (2 * i + 1)%nat = Some (hex_digit (lo_nibble c)).
Proof.
  revert i. induction policy as [|x policy IH]; intros i H; [discriminate | ].
  destruct i as [|i]; simpl in H.
  - injection H as ->. split; reflexivity.
  - apply IH in H. replace (2 * S i)%nat with (S (S (2 * i))) by lia.
    exact H.
Qed.

Lemma hex_of_length (policy : list char) :
  length (hex_of policy) = (2 * length policy)%nat.
Proof. induction policy as [|x policy IH]; simpl; [reflexivity | lia]. Qed.

Lemma c_str_lower (l : list ascii) :
  Forall (fun c => c ∈ lowercase_hex) l ->
  c_str (l ++ [Ascii.zero]) = String.string_of_list_ascii l.
Proof.
  induction 1 as [|c l Hc _ IH]; simpl; [reflexivity | ].
  rewrite IH. destruct (Ascii.eqb c Ascii.zero) eqn:E; [ | reflexivity].
  apply Ascii.eqb_eq in E. subst c. apply list_elem_of_In in Hc.
  vm_compute in Hc. exfalso. repeat (destruct Hc as [Hc|Hc]; try discriminate).
  exact Hc.
Qed.

End Codec.

(** C8: for every 8 raw bytes, whatever their high bits, [policy_to_hex]
    fills a 17-character buffer with 16 lowercase hexadecimal characters,
    two per byte in order with the high nibble first, and a final NUL; the
    descriptor 00 11 22 33 44 55 66 77 reads "0011223344556677". *)
Theorem policy_to_hex_correct (policy : list char) (hex : list ascii) :
  length policy = 8%nat -> length hex = 17%nat ->
  let out := policy_to_hex policy hex in
  length out = 17%nat
  /\ out !! 16%nat = Some Ascii.zero
  /\ Forall (fun c => c ∈ lowercase_hex) (take 16 out)
  /\ (forall i c, policy !! i = Some c ->
        out !! (2 * i)%nat = Some (hex_digit (hi_nibble c))
        /\ out !! (2 * i + 1)%nat = Some (hex_digit (lo_nibble c)))
  /\ c_str out = String.string_of_list_ascii (take 16 out)
  /\ c_str (policy_to_hex [x00; x11; x22; x33; x44; x55; x66; x77] hex)
     = "0011223344556677"%string.
Proof.
  intros Hp Hh out. subst out.
  rewrite (policy_to_hex_eq policy hex Hp Hh).
  pose proof (hex_of_length policy) as Hl. rewrite Hp in Hl.
  assert (take 16 (hex_of policy ++ [Ascii.zero]) = hex_of policy) as Ht.
  { rewrite take_app_le by lia. apply take_ge. lia. }
  rewrite Ht.
  split; [rewrite length_app; simpl; lia | ].
  split; [rewrite lookup_app_r by lia; rewrite Hl; reflexivity | ].
  split; [apply hex_of_lower | ].
  split.
  { intros i c Hi. pose proof (lookup_lt_Some _ _ _ Hi) as Hlt.
    destruct (hex_of_lookup policy i c Hi) as [H1 H2].
    rewrite !lookup_app_l by lia. split; assumption. }
  split; [apply c_str_lower, hex_of_lower | ].
  rewrite policy_to_hex_eq by (reflexivity || assumption). reflexivity.
Qed.

Lemma policy_to_hex_correct_witness :
  let policy := Examples.D2 in
  let hex := uninit 17 Ascii.zero in
  let out := policy_to_hex policy hex in
  length out = 17%nat
  /\ out !! 16%nat = Some Ascii.zero
  /\ Forall (fun c => c ∈ lowercase_hex) (take 16 out)
  /\ (forall i c, policy !! i = Some c ->
        out !! (2 * i)%nat = Some (hex_digit (hi_nibble c))
        /\ out !! (2 * i + 1)%nat = Some (hex_digit (lo_nibble c)))
  /\ c_str out = String.string_of_list_ascii (take 16 out)
  /\ c_str (policy_to_hex [x00; x11; x22; x33; x44; x55; x66; x77] hex)
     = "0011223344556677"%string.
Proof.
  exact (policy_to_hex_correct Examples.D2 (uninit 17 Ascii.zero)
           eq_refl eq_refl).
Defined.

(** ** The operating-system model *)

Section Allocation.

Lemma lowest_free_from_ge (fuel : nat) (n : Z) (used : gset Z) :
  n <= lowest_free_from fuel n used.
Proof.
  revert n. induction fuel as [|fuel IH]; intros n; simpl; [lia | ].
  destruct (decide (n ∈ used)); [ | lia].
  specialize (IH (n + 1)). lia.
Qed.

Lemma lowest_free_from_fresh (fuel : nat) : forall (n : Z) (used : gset Z),
  (size (filter (fun k : Z => (n <= k)%Z) used) <= fuel)%nat ->
  lowest_free_from fuel n used ∉ used.
Proof.
  induction fuel as [|fuel IH]; intros n used Hsz; simpl.
  - assert (filter (fun k => n <= k) used ≡ ∅) as He
      by (apply size_empty_iff; lia).
    intros Hin. assert (n ∈ filter (fun k => n <= k) used) as Hn
      by (apply elem_of_filter; split; [lia | exact Hin]).
    rewrite He in Hn. exact (not_elem_of_empty n Hn).
  - destruct (decide (n ∈ used)) as [Hin|Hout]; [ | exact Hout].
    apply IH.
    assert (filter (fun k => n + 1 <= k) used ⊂ filter (fun k => n <= k) used)
      as Hsub.
    { split.
      - intros k Hk. apply elem_of_filter in Hk as [Hle Hk].
        apply elem_of_filter. split; [lia | exact Hk].
      - intros Hc. assert (n ∈ filter (fun k => n + 1 <= k) used) as Hn.
        { apply Hc, elem_of_filter. split; [lia | exact Hin]. }
        apply elem_of_filter in Hn as [Hle _]. lia. }
    apply subset_size in Hsub. lia.
Qed.

Lemma lowest_free_fresh (used : gset Z) : lowest_free used ∉ used.
Proof.
  apply lowest_free_from_fresh, subseteq_size.
  intros k Hk. apply elem_of_filter in Hk as [_ Hk]. exact Hk.
Qed.

Lemma lowest_free_nonneg (used : gset Z) : 0 <= lowest_free used.
Proof. apply lowest_free_from_ge. Qed.

Lemma lowest_free_unused {V} (m : gmap Z V) : m !! lowest_free (dom m) = None.
Proof. apply not_elem_of_dom, lowest_free_fresh. Qed.

Lemma lowest_free_not_minus_one (used : gset Z) :
  (lowest_free used =? -1) = false.
Proof. pose proof (lowest_free_nonneg used). lia. Qed.

Lemma alloc_release {V} (m : gmap Z V) (v : V) :
  delete (lowest_free (dom m)) (<[lowest_free (dom m) := v]> m) = m.
Proof. apply delete_insert_id, lowest_free_unused. Qed.

End Allocation.

(** ** Relations between the world before and after a computation *)

Section Establishes.

Context (R : relation world) `{!PreOrder R}.

Lemma establishes_ret {A} (a : A) : establishes R (ret a).
Proof. intros w. reflexivity. Qed.

Lemma establishes_crash {A} : establishes R (@crash A).
Proof. intros w. reflexivity. Qed.

Lemma establishes_bind {A B} (m : M A) (k : A -> M B) :
  establishes R m -> (forall a, establishes R (k a)) ->
  establishes R (bind m k).
Proof.
  intros Hm Hk w. unfold bind. specialize (Hm w).
  destruct (m w) as [[a|] w1]; simpl in *; [ | exact Hm].
  transitivity w1; [exact Hm | apply Hk].
Qed.

End Establishes.

#[global] Instance appends_preorder (Q : event -> Prop) : PreOrder (appends Q).
Proof.
  split.
  - intros w. exists []. rewrite app_nil_r. split; [reflexivity | constructor].
  - intros w1 w2 w3 (e1 & H1 & F1) (e2 & H2 & F2). exists (e1 ++ e2).
    rewrite H2, H1, app_assoc. split; [reflexivity | ].
    apply Forall_app. split; assumption.
Qed.

#[global] Instance same_fs_preorder : PreOrder same_fs.
Proof.
  split; unfold same_fs; [intros w; reflexivity | ].
  intros w1 w2 w3 H1 H2. congruence.
Qed.

Lemma appends_one (Q : event -> Prop) (e : event) (w w' : world) :
  Q e -> trace w' = trace w -> appends Q w (emit e w').
Proof.
  intros HQ Ht. exists [e]. simpl. rewrite Ht.
  split; [reflexivity | constructor; [exact HQ | constructor]].
Qed.

Lemma appends_writes (P : ext4_encryption_policy -> Prop) (w w' : world) :
  appends (write_of P) w w' ->
  exists ps, kernel_writes (trace w') = kernel_writes (trace w) ++ ps
             /\ Forall P ps.
Proof.
  intros (evs & Ht & HF). exists (kernel_writes evs).
  rewrite Ht. unfold kernel_writes. rewrite omap_app. split; [reflexivity | ].
  clear Ht. induction HF as [|e evs He _ IH]; simpl; [constructor | ].
  destruct e as [ | | | | | | fd [] eep r | | ]; simpl in *; try exact IH.
  constructor; assumption.
Qed.

Lemma appends_no_writes (w w' : world) :
  appends (write_of (fun _ => False)) w w' ->
  kernel_writes (trace w') = kernel_writes (trace w).
Proof.
  intros H. apply appends_writes in H as (ps & -> & HF).
  destruct HF as [|p ps []]. apply app_nil_r.
Qed.

Ltac establish prims :=
  repeat first
    [ prims
    | apply (establishes_ret _)
    | apply (establishes_crash _)
    | apply (establishes_bind _); [ | intros ?]
    | match goal with
      | |- establishes _ (if ?b then _ else _) => destruct b
      | |- establishes _ (match ?x with _ => _ end) => destruct x
      end ].

(** ** What each call appends to the trace *)

Section Appends.

Variable P : ext4_encryption_policy -> Prop.

Local Abbreviation R := (appends (write_of P)).

Ltac one_event :=
  intros w; repeat case_match; simpl;
  first [ reflexivity | apply appends_one; [exact I | reflexivity] ].

Lemma access_appends path mode : establishes R (access path mode).
Proof. unfold access. one_event. Qed.

Lemma open_appends path oflags : establishes R (open path oflags).
Proof. unfold open. one_event. Qed.

Lemma close_appends fd : establishes R (close fd).
Proof. unfold close. one_event. Qed.

Lemma opendir_appends path : establishes R (opendir path).
Proof. unfold opendir. one_event. Qed.

Lemma readdir_appends dir : establishes R (readdir dir).
Proof. unfold readdir. one_event. Qed.

Lemma closedir_appends dir : establishes R (closedir dir).
Proof. unfold closedir. one_event. Qed.

Lemma LOG_appends sev msg : establishes R (LOG sev msg).
Proof. unfold LOG. one_event. Qed.

Lemma PLOG_appends sev msg : establishes R (PLOG sev msg).
Proof. unfold PLOG. one_event. Qed.

Lemma ioctl_get_appends fd eep :
  establishes R (ioctl fd EXT4_IOC_GET_ENCRYPTION_POLICY eep).
Proof. unfold ioctl. one_event. Qed.

Lemma ioctl_set_appends fd eep :
  P eep -> establishes R (ioctl fd EXT4_IOC_SET_ENCRYPTION_POLICY eep).
Proof.
  intros HP w. unfold ioctl. repeat case_match; simpl;
    (apply appends_one; [exact HP | reflexivity]).
Qed.

Ltac prims :=
  first [ apply access_appends | apply open_appends | apply close_appends
        | apply opendir_appends | apply readdir_appends
        | apply closedir_appends | apply LOG_appends | apply PLOG_appends
        | apply ioctl_get_appends ].

Lemma is_dir_empty_loop_appends fuel dir n :
  establishes R (is_dir_empty_loop fuel dir n).
Proof.
  revert n. induction fuel as [|fuel IH]; intros n; simpl;
    establish ltac:(first [apply IH | prims]).
Qed.

Lemma is_dir_empty_appends dirname : establishes R (is_dir_empty dirname).
Proof.
  unfold is_dir_empty.
  establish ltac:(first [ intros w; apply is_dir_empty_loop_appends
                        | prims ]).
Qed.

Lemma e4crypt_policy_get_appends directory policy policy_length :
  establishes R (e4crypt_policy_get directory policy policy_length).
Proof. unfold e4crypt_policy_get. establish prims. Qed.

Lemma e4crypt_policy_set_appends directory policy policy_length :
  P (policy_record (memcpy (uninit 8 x00) policy 8)) ->
  establishes R (e4crypt_policy_set directory policy policy_length).
Proof.
  intros HP. unfold e4crypt_policy_set.
  establish ltac:(first [ apply is_dir_empty_appends
                        | apply ioctl_set_appends; exact HP | prims ]).
Qed.

Lemma e4crypt_policy_ensure_appends directory policy policy_length :
  P (policy_record (memcpy (uninit 8 x00) policy 8)) ->
  establishes R (e4crypt_policy_ensure directory policy policy_length).
Proof.
  intros HP. unfold e4crypt_policy_ensure.
  establish ltac:(first [ apply e4crypt_policy_get_appends
                        | apply e4crypt_policy_set_appends; exact HP
                        | prims ]).
Qed.

End Appends.

(** ** Calls that leave the kernel's directory state alone *)

Section SameFs.

Ltac unchanged := intros w; repeat case_match; reflexivity.

Lemma access_same_fs path mode : establishes same_fs (access path mode).
Proof. unfold access. unchanged. Qed.

Lemma open_same_fs path oflags : establishes same_fs (open path oflags).
Proof. unfold open. unchanged. Qed.

Lemma close_same_fs fd : establishes same_fs (close fd).
Proof. unfold close. unchanged. Qed.

Lemma opendir_same_fs path : establishes same_fs (opendir path).
Proof. unfold opendir. unchanged. Qed.

Lemma readdir_same_fs dir : establishes same_fs (readdir dir).
Proof. unfold readdir. unchanged. Qed.

Lemma closedir_same_fs dir : establishes same_fs (closedir dir).
Proof. unfold closedir. unchanged. Qed.

Lemma LOG_same_fs sev msg : establishes same_fs (LOG sev msg).
Proof. unfold LOG. unchanged. Qed.

Lemma PLOG_same_fs sev msg : establishes same_fs (PLOG sev msg).
Proof. unfold PLOG. unchanged. Qed.

Lemma ioctl_get_same_fs fd eep :
  establishes same_fs (ioctl fd EXT4_IOC_GET_ENCRYPTION_POLICY eep).
Proof. unfold ioctl. unchanged. Qed.

Ltac prims :=
  first [ apply access_same_fs | apply open_same_fs | apply close_same_fs
        | apply opendir_same_fs | apply readdir_same_fs
        | apply closedir_same_fs | apply LOG_same_fs | apply PLOG_same_fs
        | apply ioctl_get_same_fs ].

Lemma is_dir_empty_loop_same_fs fuel dir n :
  establishes same_fs (is_dir_empty_loop fuel dir n).
Proof.
  revert n. induction fuel as [|fuel IH]; intros n; simpl;
    establish ltac:(first [apply IH | prims]).
Qed.

Lemma is_dir_empty_same_fs dirname : establishes same_fs (is_dir_empty dirname).
Proof.
  unfold is_dir_empty.
  establish ltac:(first [ intros w; apply is_dir_empty_loop_same_fs
                        | prims ]).
Qed.

Lemma e4crypt_policy_get_same_fs directory policy policy_length :
  establishes same_fs (e4crypt_policy_get directory policy policy_length).
Proof. unfold e4crypt_policy_get. establish prims. Qed.

End SameFs.

(** ** [e4crypt_policy_get], path by path *)

Section GetPath.

(** The four-field test of the source is the test for the fixed tuple. *)
Lemma recognised_fixed_tuple (eep : ext4_encryption_policy) :
  (int_of_char (version eep) =? 0)
  && (int_of_char (contents_encryption_mode eep)
        =? EXT4_ENCRYPTION_MODE_AES_256_XTS)
  && (int_of_char (filenames_encryption_mode eep)
        =? EXT4_ENCRYPTION_MODE_AES_256_CTS)
  && (int_of_char (flags eep) =? 0)
  = bool_decide (fixed_tuple eep).
Proof.
  unfold EXT4_ENCRYPTION_MODE_AES_256_XTS, EXT4_ENCRYPTION_MODE_AES_256_CTS.
  rewrite !int_of_char_0, int_of_char_1, int_of_char_4.
  unfold fixed_tuple.
  repeat case_bool_decide; simpl; try reflexivity; tauto.
Qed.

Lemma e4crypt_policy_get_run w directory ino policy :
  fs w !! directory = Some ino ->
  i_writable ino = true -> i_openable ino = true ->
  exists w',
    e4crypt_policy_get directory policy 8 w = (Some (get_answer ino policy), w')
    /\ fs w' = fs w /\ fds w' = fds w /\ streams w' = streams w.
Proof.
  intros Hfs Hw Ho.
  unfold e4crypt_policy_get, get_answer, bind, access, open, ioctl, close,
    LOG, PLOG, ret. simpl.
  rewrite Hfs, Hw. simpl. rewrite Hfs, Ho. simpl.
  rewrite lowest_free_not_minus_one. simpl.
  rewrite lookup_insert_eq, Hfs.
  destruct (ext4_get_policy ino) as [p|]; simpl;
    rewrite lookup_insert_eq; simpl; rewrite ?recognised_fixed_tuple;
    try destruct (bool_decide (fixed_tuple p)); simpl;
    (eexists; split; [reflexivity | ]); simpl;
    rewrite alloc_release; auto.
Qed.

End GetPath.

(** ** DirectoryGuard *)

Section DirectoryGuard.

Lemma strcmp_eq (a b : string) : (strcmp a b =? 0) = bool_decide (a = b).
Proof.
  unfold strcmp. case_bool_decide as H.
  - subst b. pose proof (String.compare_antisym a a) as Ha.
    destruct (String.compare a a); simpl in Ha; try discriminate; reflexivity.
  - destruct (String.compare a b) eqn:E; try reflexivity.
    apply String.compare_eq_iff in E. contradiction.
Qed.

Lemma counted_cons_reserved (rest : list string) :
  counted ("lost+found"%string :: rest) = counted rest.
Proof. unfold counted. rewrite filter_cons_False; [reflexivity | tauto]. Qed.

Lemma counted_cons_other (name : string) (rest : list string) :
  name <> "lost+found"%string -> counted (name :: rest) = name :: counted rest.
Proof. intros H. unfold counted. rewrite filter_cons_True; tauto. Qed.

(** The loop stops with a count that is at most 2 exactly when the stream
    held at most [2 - n] countable names; it touches nothing but its own
    stream. *)
Lemma is_dir_empty_loop_run (l : list string) :
  forall (fuel : nat) (d n : Z) (w : world),
    streams w !! d = Some l -> (length l < fuel)%nat ->
    exists n' l' w',
      is_dir_empty_loop fuel (Some d) n w = (Some n', w')
      /\ (n' <=? 2) = (n + Z.of_nat (length (counted l)) <=? 2)
      /\ fs w' = fs w /\ fds w' = fds w
      /\ streams w' = <[d := l']> (streams w).
Proof.
  induction l as [|name rest IH]; intros fuel d n w Hs Hfuel;
    (destruct fuel as [|fuel]; [simpl in Hfuel; lia | ]);
    simpl; unfold bind, readdir; rewrite Hs.
  - exists n, [], (emit (EvReaddir d None) w). simpl.
    repeat split; try reflexivity.
    + f_equal. lia.
    + symmetry. apply insert_id. exact Hs.
  - rewrite strcmp_eq. simpl in Hfuel.
    set (w1 := emit (EvReaddir d (Some name))
                    (set_streams (<[d := rest]> (streams w)) w)).
    assert (streams w1 !! d = Some rest) as Hs1
      by (simpl; apply lookup_insert_eq).
    case_bool_decide as Hname.
    + subst name. rewrite counted_cons_reserved.
      destruct (IH fuel d n w1 Hs1 ltac:(lia))
        as (n' & l' & w' & Hrun & Hn & Hfs & Hfds & Hst).
      exists n', l', w'. rewrite Hrun, Hn, Hfs, Hfds, Hst. simpl.
      rewrite insert_insert_eq. repeat split; reflexivity.
    + rewrite counted_cons_other by exact Hname. simpl length.
      destruct (n + 1 >? 2) eqn:Hgt.
      * exists (n + 1), rest, w1. simpl.
        repeat split; try reflexivity.
        apply Z.gtb_lt in Hgt.
        rewrite !(proj2 (Z.leb_gt _ _)) by lia. reflexivity.
      * destruct (IH fuel d (n + 1) w1 Hs1 ltac:(lia))
          as (n' & l' & w' & Hrun & Hn & Hfs & Hfds & Hst).
        exists n', l', w'. rewrite Hrun, Hn, Hfs, Hfds, Hst. simpl.
        rewrite insert_insert_eq. repeat split; try reflexivity.
        f_equal. lia.
Qed.

Lemma is_dir_empty_run w dirname ino :
  fs w !! dirname = Some ino -> i_listable ino = true ->
  exists w',
    is_dir_empty dirname w
    = (Some (if (length (counted (i_entries ino)) <=? 2)%nat then 1 else 0), w')
    /\ fs w' = fs w /\ fds w' = fds w /\ streams w' = streams w
    /\ kernel_writes (trace w') = kernel_writes (trace w).
Proof.
  intros Hfs Hl.
  assert (exists w',
    is_dir_empty dirname w
    = (Some (if (length (counted (i_entries ino)) <=? 2)%nat then 1 else 0), w')
    /\ fs w' = fs w /\ fds w' = fds w /\ streams w' = streams w)
    as (w' & Hrun & Hfs' & Hfds' & Hst').
  { unfold is_dir_empty, bind at 1, opendir. rewrite Hfs, Hl.
    set (d := lowest_free (dom (streams w))).
    set (w0 := emit _ _).
    assert (streams w0 !! d = Some (i_entries ino)) as Hs
      by (simpl; apply lookup_insert_eq).
    unfold bind at 1, pending. rewrite Hs. simpl default.
    destruct (is_dir_empty_loop_run (i_entries ino)
                (S (length (i_entries ino))) d 0 w0 Hs ltac:(lia))
      as (n' & l' & w' & Hrun & Hn & Hfs' & Hfds' & Hst').
    rewrite Hrun. unfold bind, closedir, ret. rewrite Hst', lookup_insert_eq.
    simpl.
    exists (emit (EvClosedir d) (set_streams (delete d (<[d:=l']> (streams w0))) w')).
    split; [ | repeat split].
    - rewrite Hn.
      destruct (length (counted (i_entries ino)) <=? 2)%nat eqn:E;
        [ apply Nat.leb_le in E; rewrite (proj2 (Z.leb_le _ _)) by lia
        | apply Nat.leb_gt in E; rewrite (proj2 (Z.leb_gt _ _)) by lia ];
        reflexivity.
    - simpl. exact Hfs'.
    - simpl. exact Hfds'.
    - simpl. rewrite insert_insert_eq. apply alloc_release. }
  exists w'. repeat split; try assumption.
  pose proof (is_dir_empty_appends (fun _ => False) dirname w) as Hk.
  rewrite Hrun in Hk. apply appends_no_writes in Hk. exact Hk.
Qed.

Lemma counted_listing (names : list string) :
  listing names ->
  ((length (counted names) <= 2)%nat
   <-> (forall name, name ∈ names -> reserved name)).
Proof.
  intros (Hnd & Hdot & Hdotdot).
  assert (NoDup (counted names)) as Hndc by (apply NoDup_filter, Hnd).
  assert (forall x, x ∈ counted names <-> x <> "lost+found"%string /\ x ∈ names)
    as Hin by (intros x; unfold counted; rewrite list_elem_of_filter; tauto).
  assert (["."; ".."]%string ⊆+ counted names) as Hsub.
  { apply NoDup_submseteq.
    - repeat constructor; rewrite list_elem_of_In; simpl;
        intuition discriminate.
    - intros x Hx. apply Hin.
      apply list_elem_of_In in Hx. simpl in Hx.
      destruct Hx as [<-|[<-|[]]]; (split; [discriminate | assumption]). }
  split.
  - intros Hlen name Hname.
    destruct (decide (name = "lost+found"%string)) as [->|Hne];
      [right; right; reflexivity | ].
    assert (["."; ".."]%string ≡ₚ counted names) as Hperm
      by (apply submseteq_length_Permutation; [exact Hsub | simpl; lia]).
    assert (name ∈ ["."; ".."]%string) as Hmem
      by (rewrite Hperm; apply Hin; split; assumption).
    apply list_elem_of_In in Hmem. simpl in Hmem.
    destruct Hmem as [<-|[<-|[]]]; [left | right; left]; reflexivity.
  - intros Hres.
    assert (counted names ⊆+ ["."; ".."]%string) as Hle.
    { apply NoDup_submseteq; [exact Hndc | ].
      intros x Hx. apply Hin in Hx as [Hne Hx].
      apply list_elem_of_In. simpl.
      destruct (Hres x Hx) as [Hd | [Hd | Hd]]; [auto | auto | contradiction]. }
    apply submseteq_length in Hle. exact Hle.
Qed.

End DirectoryGuard.

(** C7: on every listing, [is_dir_empty] answers true exactly when the
    listing has no entry other than ".", ".." and "lost+found"; the answer
    is the test that at most two names are counted, where "lost+found" is
    never counted and "." and ".." always are. *)
Theorem is_dir_empty_correct (w : world) (dirname : string) (ino : inode) :
  fs w !! dirname = Some ino -> i_listable ino = true ->
  listing (i_entries ino) ->
  exists r w',
    is_dir_empty dirname w = (Some r, w')
    /\ r = (if (length (counted (i_entries ino)) <=? 2)%nat then 1 else 0)
    /\ (r <> 0 <-> (forall name, name ∈ i_entries ino -> reserved name))
    /\ ("lost+found"%string ∉ counted (i_entries ino))
    /\ "."%string ∈ counted (i_entries ino)
    /\ ".."%string ∈ counted (i_entries ino).
Proof.
  intros Hfs Hl Hlist.
  destruct (is_dir_empty_run w dirname ino Hfs Hl) as (w' & Hrun & _).
  pose proof (counted_listing _ Hlist) as Hiff.
  destruct Hlist as (_ & Hdot & Hdotdot).
  eexists _, w'. split; [exact Hrun | ]. split; [reflexivity | ].
  split; [ | unfold counted; rewrite !list_elem_of_filter; repeat split;
             [tauto | discriminate | exact Hdot | discriminate | exact Hdotdot]].
  rewrite <- Hiff.
  destruct (length (counted (i_entries ino)) <=? 2)%nat eqn:E.
  - apply Nat.leb_le in E. split; [intros _; exact E | discriminate].
  - apply Nat.leb_gt in E. split; [congruence | lia].
Qed.

Lemma is_dir_empty_correct_witness :
  let w := Examples.world_of "/data/x" Examples.recovered_dir in
  let ino := Examples.recovered_dir in
  exists r w',
    is_dir_empty "/data/x" w = (Some r, w')
    /\ r = (if (length (counted (i_entries ino)) <=? 2)%nat then 1 else 0)
    /\ (r <> 0 <-> (forall name, name ∈ i_entries ino -> reserved name))
    /\ ("lost+found"%string ∉ counted (i_entries ino))
    /\ "."%string ∈ counted (i_entries ino)
    /\ ".."%string ∈ counted (i_entries ino).
Proof.
  apply is_dir_empty_correct; [reflexivity | reflexivity | ].
  repeat split.
  - repeat constructor; rewrite list_elem_of_In; simpl; intuition discriminate.
  - apply list_elem_of_In. simpl. auto.
  - apply list_elem_of_In. simpl. auto.
Defined.

(** ** [e4crypt_policy_set], path by path *)

Section SetPath.

Variables (w : world) (directory : string) (ino : inode) (policy : list char).
Hypothesis Hfs : fs w !! directory = Some ino.
Hypothesis Hw : i_writable ino = true.
Hypothesis Ho : i_openable ino = true.
Hypothesis Hl : i_listable ino = true.

(** The world when [is_dir_empty] has answered: the descriptor of [open]
    is still in the table. *)
Lemma e4crypt_policy_set_guard :
  exists w1,
    e4crypt_policy_set directory policy 8 w
    = (let fd := lowest_free (dom (fds w)) in
       if (length (counted (i_entries ino)) <=? 2)%nat then
         (r <- ioctl fd EXT4_IOC_SET_ENCRYPTION_POLICY (set_request policy) ;;
          if negb (r.1 =? 0) then
            PLOG ERROR ("Failed to set encryption policy for " +:+ directory) ;;;
            close fd ;;;
            ret (-1)
          else
            close fd ;;;
            LOG INFO ("Policy for " +:+ directory +:+ " set to "
                      +:+ c_str (policy_to_hex policy (uninit 17 Ascii.zero))) ;;;
            ret 0) w1
       else
         (LOG ERROR ("Can only set policy on an empty directory "
                     +:+ directory) ;;;
          ret (-1)) w1)
    /\ fs w1 = fs w
    /\ fds w1 = <[lowest_free (dom (fds w)) := directory]> (fds w)
    /\ streams w1 = streams w
    /\ kernel_writes (trace w1) = kernel_writes (trace w).
Proof.
  unfold e4crypt_policy_set.
  change (negb (8 =? N.of_nat EXT4_KEY_DESCRIPTOR_SIZE)%N) with false.
  cbv iota.
  unfold bind at 1, access. cbv beta zeta. rewrite Hfs, Hw.
  change (negb (0 =? 0)) with false. cbv iota.
  unfold bind at 1, open. cbv beta zeta. simpl fs. rewrite Hfs, Ho.
  rewrite lowest_free_not_minus_one.
  set (fd := lowest_free (dom (fds w))).
  set (w0 := emit (EvOpen _ _ _) _).
  destruct (is_dir_empty_run w0 directory ino Hfs Hl)
    as (w1 & Hrun & Hfs1 & Hfds1 & Hst1 & Hk1).
  exists w1. unfold bind at 1. rewrite Hrun.
  split; [ | repeat split; try assumption].
  - destruct (length (counted (i_entries ino)) <=? 2)%nat; reflexivity.
  - rewrite Hk1. simpl. unfold kernel_writes. rewrite !omap_app.
    simpl. rewrite !app_nil_r. reflexivity.
Qed.

Lemma e4crypt_policy_set_run :
  (length (counted (i_entries ino)) <= 2)%nat ->
  exists w',
    e4crypt_policy_set directory policy 8 w
    = (Some (match ext4_process_policy ino (set_request policy) with
             | Some _ => 0
             | None => -1
             end), w')
    /\ fs w' = match ext4_process_policy ino (set_request policy) with
               | Some ino' => <[directory := ino']> (fs w)
               | None => fs w
               end
    /\ fds w' = fds w /\ streams w' = streams w
    /\ kernel_writes (trace w')
       = kernel_writes (trace w) ++ [set_request policy].
Proof.
  intros Hempty.
  destruct e4crypt_policy_set_guard as (w1 & Hrun & Hfs1 & Hfds1 & Hst1 & Hk1).
  rewrite Hrun. cbv zeta.
  rewrite (proj2 (Nat.leb_le _ _) Hempty).
  unfold bind, ioctl, close, LOG, PLOG, ret.
  rewrite Hfds1, lookup_insert_eq, Hfs1, Hfs.
  destruct (ext4_process_policy ino (set_request policy)) as [ino'|]; simpl;
    rewrite Hfds1, lookup_insert_eq; simpl;
    (eexists; split; [reflexivity | ]); simpl;
    rewrite ?alloc_release;
    unfold kernel_writes in *; rewrite !omap_app, Hk1; simpl;
    rewrite ?app_nil_r; auto.
Qed.

Lemma e4crypt_policy_set_not_empty :
  (2 < length (counted (i_entries ino)))%nat ->
  exists w',
    e4crypt_policy_set directory policy 8 w = (Some (-1), w')
    /\ fs w' = fs w
    /\ fds w' = <[lowest_free (dom (fds w)) := directory]> (fds w)
    /\ kernel_writes (trace w') = kernel_writes (trace w).
Proof.
  intros Hbusy.
  destruct e4crypt_policy_set_guard as (w1 & Hrun & Hfs1 & Hfds1 & Hst1 & Hk1).
  rewrite Hrun. cbv zeta.
  rewrite (proj2 (Nat.leb_gt _ _) Hbusy).
  unfold bind, LOG, ret. simpl.
  eexists; split; [reflexivity | ]; simpl.
  unfold kernel_writes in *. rewrite omap_app, Hk1. simpl.
  rewrite app_nil_r. auto.
Qed.

End SetPath.

(** ** Wrong lengths *)

Section WrongLength.

Variables (w : world) (directory : string) (policy : list char).
Variable policy_length : N.
Hypothesis Hlen : policy_length <> 8%N.

Lemma wrong_length_test :
  negb (policy_length =? N.of_nat EXT4_KEY_DESCRIPTOR_SIZE)%N = true.
Proof. apply negb_true_iff, N.eqb_neq. exact Hlen. Qed.

Lemma e4crypt_policy_set_wrong_length :
  e4crypt_policy_set directory policy policy_length w
  = (Some (-1),
     emit (EvLog ERROR ("Policy wrong length: " +:+ pretty policy_length)) w).
Proof. unfold e4crypt_policy_set. rewrite wrong_length_test. reflexivity. Qed.

Lemma e4crypt_policy_get_wrong_length :
  e4crypt_policy_get directory policy policy_length w
  = (Some (-1, policy),
     emit (EvLog ERROR ("Policy wrong length: " +:+ pretty policy_length)) w).
Proof. unfold e4crypt_policy_get. rewrite wrong_length_test. reflexivity. Qed.

Lemma e4crypt_policy_ensure_wrong_length :
  e4crypt_policy_ensure directory policy policy_length w
  = (Some (-1),
     emit (EvLog ERROR ("Policy wrong length: " +:+ pretty policy_length)) w).
Proof. unfold e4crypt_policy_ensure. rewrite wrong_length_test. reflexivity. Qed.

End WrongLength.

(** ** [e4crypt_policy_get] on every world *)

Section GetTotal.

Variables (w : world) (directory : string) (policy : list char).

Lemma e4crypt_policy_get_no_access :
  writable w directory = false ->
  e4crypt_policy_get directory policy 8 w
  = (Some (-1, policy),
     emit (EvPLog ERROR ("Failed to access directory " +:+ directory))
          (emit (EvAccess directory W_OK (-1)) w)).
Proof.
  unfold writable. intros H.
  unfold e4crypt_policy_get, bind, access, PLOG, ret. simpl.
  destruct (fs w !! directory) as [ino|]; [rewrite H | ]; reflexivity.
Qed.

Lemma e4crypt_policy_get_no_open :
  writable w directory = true -> openable w directory = false ->
  e4crypt_policy_get directory policy 8 w
  = (Some (-1, policy),
     emit (EvPLog ERROR ("Failed to open directory " +:+ directory))
          (emit (EvOpen directory dir_oflags (-1))
                (emit (EvAccess directory W_OK 0) w))).
Proof.
  unfold writable, openable. intros Hw Ho.
  destruct (fs w !! directory) as [ino|] eqn:Hfs; [ | discriminate].
  unfold e4crypt_policy_get, bind, access, open, PLOG, ret. simpl.
  rewrite Hfs, Hw. simpl. rewrite Hfs, Ho. reflexivity.
Qed.

Lemma e4crypt_policy_get_total (policy_length : N) :
  exists w',
    e4crypt_policy_get directory policy policy_length w
    = (Some (get_result w directory policy policy_length), w')
    /\ fs w' = fs w /\ fds w' = fds w /\ streams w' = streams w.
Proof.
  unfold get_result.
  destruct (N.eq_dec policy_length 8%N) as [->|Hlen].
  - change (negb (8 =? N.of_nat EXT4_KEY_DESCRIPTOR_SIZE)%N) with false.
    cbv iota.
    destruct (writable w directory) eqn:Hw;
      [destruct (openable w directory) eqn:Ho | ].
    + unfold writable, openable in *.
      destruct (fs w !! directory) as [ino|] eqn:Hfs; [ | discriminate].
      rewrite Hw, Ho. simpl.
      destruct (e4crypt_policy_get_run w directory ino policy Hfs Hw Ho)
        as (w' & Hrun & Hrest).
      exists w'. split; assumption.
    + rewrite (e4crypt_policy_get_no_open Hw Ho).
      unfold writable, openable in *.
      destruct (fs w !! directory) as [ino|]; [ | discriminate].
      rewrite Hw, Ho. simpl.
      eexists; split; [reflexivity | repeat split].
    + rewrite (e4crypt_policy_get_no_access Hw).
      unfold writable in *.
      destruct (fs w !! directory) as [ino|]; [rewrite Hw | ]; simpl;
        (eexists; split; [reflexivity | repeat split]).
  - rewrite (e4crypt_policy_get_wrong_length w directory policy _ Hlen).
    rewrite (wrong_length_test _ Hlen).
    eexists; split; [reflexivity | repeat split].
Qed.

Lemma get_result_cases (policy_length : N) :
  get_result w directory policy policy_length = (-1, policy)
  \/ exists ino p,
       policy_length = 8%N /\ fs w !! directory = Some ino
       /\ i_writable ino = true /\ i_openable ino = true
       /\ ext4_get_policy ino = Some p /\ fixed_tuple p
       /\ get_result w directory policy policy_length
          = (0, memcpy policy (master_key_descriptor p) 8).
Proof.
  unfold get_result.
  destruct (N.eq_dec policy_length 8%N) as [->|Hlen];
    [ | rewrite (wrong_length_test _ Hlen); left; reflexivity].
  change (negb (8 =? N.of_nat EXT4_KEY_DESCRIPTOR_SIZE)%N) with false.
  cbv iota.
  destruct (fs w !! directory) as [ino|]; [ | left; reflexivity].
  destruct (i_writable ino) eqn:Hw; [ | left; reflexivity].
  destruct (i_openable ino) eqn:Ho; [ | left; reflexivity].
  simpl. unfold get_answer.
  destruct (ext4_get_policy ino) as [p|] eqn:Hp; [ | left; reflexivity].
  case_bool_decide as Hfix; [ | left; reflexivity].
  right. exists ino, p. repeat split; try assumption; try reflexivity;
    apply Hfix.
Qed.

End GetTotal.

(** ** Length validation, permissions and the caller's buffer *)

(** C5: given a length other than 8, each of [e4crypt_policy_set],
    [e4crypt_policy_get] and [e4crypt_policy_ensure] returns -1 after one
    "Policy wrong length" log line and nothing else: no [access], no
    [open], no directory listing and no [ioctl] appear in the trace, and
    the file system, the descriptor table and the streams are untouched. *)
Theorem wrong_length_rejected (w : world) (directory : string)
    (policy : list char) (policy_length : N) :
  policy_length <> 8%N ->
  let w' :=
    emit (EvLog ERROR ("Policy wrong length: " +:+ pretty policy_length)) w in
  e4crypt_policy_set directory policy policy_length w = (Some (-1), w')
  /\ e4crypt_policy_get directory policy policy_length w
     = (Some (-1, policy), w')
  /\ e4crypt_policy_ensure directory policy policy_length w = (Some (-1), w')
  /\ trace w'
     = trace w ++ [EvLog ERROR ("Policy wrong length: " +:+ pretty policy_length)]
  /\ fs w' = fs w /\ fds w' = fds w /\ streams w' = streams w.
Proof.
  intros Hlen w'. subst w'.
  rewrite e4crypt_policy_set_wrong_length, e4crypt_policy_get_wrong_length,
    e4crypt_policy_ensure_wrong_length by exact Hlen.
  repeat split.
Qed.

Lemma wrong_length_rejected_witness :
  let w := Examples.world_of "/data/x" Examples.fresh_dir in
  let policy := [x00; x11; x22] in
  let w' := emit (EvLog ERROR "Policy wrong length: 3") w in
  e4crypt_policy_set "/data/x" policy 3 w = (Some (-1), w')
  /\ e4crypt_policy_get "/data/x" policy 3 w = (Some (-1, policy), w')
  /\ e4crypt_policy_ensure "/data/x" policy 3 w = (Some (-1), w')
  /\ trace w' = trace w ++ [EvLog ERROR "Policy wrong length: 3"]
  /\ fs w' = fs w /\ fds w' = fds w /\ streams w' = streams w.
Proof.
  apply (wrong_length_rejected (Examples.world_of "/data/x" Examples.fresh_dir)
           "/data/x" [x00; x11; x22] 3).
  discriminate.
Defined.

(** C9: on a directory the caller may not write to, [e4crypt_policy_get]
    returns -1 right after the failed [access(W_OK)]: the trace gains that
    call and one log line, so no [open] and no get request are issued; yet
    on no world does [e4crypt_policy_get] change the state of a directory. *)
Theorem get_requires_write_permission (w : world) (directory : string)
    (ino : inode) (policy : list char) :
  fs w !! directory = Some ino -> i_writable ino = false ->
  let w' := (e4crypt_policy_get directory policy 8 w).2 in
  e4crypt_policy_get directory policy 8 w = (Some (-1, policy), w')
  /\ trace w'
     = trace w ++ [EvAccess directory W_OK (-1);
                   EvPLog ERROR ("Failed to access directory " +:+ directory)]
  /\ kernel_reads (trace w') = kernel_reads (trace w)
  /\ (forall d p n w0, fs (e4crypt_policy_get d p n w0).2 = fs w0).
Proof.
  intros Hfs Hw w'. subst w'.
  assert (writable w directory = false) as Hno
    by (unfold writable; rewrite Hfs; exact Hw).
  rewrite (e4crypt_policy_get_no_access w directory policy Hno). simpl.
  split; [reflexivity | ]. split; [rewrite <- app_assoc; reflexivity | ].
  split.
  - unfold kernel_reads. rewrite !omap_app. simpl. rewrite !app_nil_r.
    reflexivity.
  - intros d p n w0. apply e4crypt_policy_get_same_fs.
Qed.

Lemma get_requires_write_permission_witness :
  let w := Examples.world_of "/data/x" Examples.readonly_dir in
  let w' := (e4crypt_policy_get "/data/x" Examples.D1 8 w).2 in
  e4crypt_policy_get "/data/x" Examples.D1 8 w = (Some (-1, Examples.D1), w')
  /\ trace w'
     = trace w ++ [EvAccess "/data/x" W_OK (-1);
                   EvPLog ERROR "Failed to access directory /data/x"]
  /\ kernel_reads (trace w') = kernel_reads (trace w)
  /\ (forall d p n w0, fs (e4crypt_policy_get d p n w0).2 = fs w0).
Proof.
  apply (get_requires_write_permission
           (Examples.world_of "/data/x" Examples.readonly_dir) "/data/x"
           Examples.readonly_dir Examples.D1); reflexivity.
Defined.

(** C10: [e4crypt_policy_get] always returns, with 0 or -1, and whenever
    it returns anything but 0 (wrong length, [access] or [open] refused,
    get request failed, or a record outside the fixed tuple) the caller's
    buffer is what it was; the buffer changes only together with a 0. *)
Theorem get_failure_leaves_buffer (w : world) (directory : string)
    (policy : list char) (policy_length : N) :
  exists r out w',
    e4crypt_policy_get directory policy policy_length w = (Some (r, out), w')
    /\ (r = 0 \/ r = -1)
    /\ (r <> 0 -> out = policy)
    /\ (out <> policy -> r = 0).
Proof.
  destruct (e4crypt_policy_get_total w directory policy policy_length)
    as (w' & Hrun & _).
  destruct (get_result_cases w directory policy policy_length)
    as [Hres | (ino & p & _ & _ & _ & _ & _ & _ & Hres)];
    rewrite Hres in Hrun; eexists _, _, w'; (split; [exact Hrun | ]).
  - split; [right; reflexivity | ]. split; [reflexivity | congruence].
  - split; [left; reflexivity | ]. split; [congruence | reflexivity].
Qed.

(** ** The fixed tuple *)

Lemma e4crypt_policy_get_trace w directory ino policy :
  fs w !! directory = Some ino ->
  i_writable ino = true -> i_openable ino = true ->
  exists evs,
    trace (e4crypt_policy_get directory policy 8 w).2
    = trace w
      ++ [EvAccess directory W_OK 0;
          EvOpen directory dir_oflags (lowest_free (dom (fds w)));
          EvIoctl (lowest_free (dom (fds w))) EXT4_IOC_GET_ENCRYPTION_POLICY
                  zero_policy
                  (match ext4_get_policy ino with Some _ => 0 | None => -1 end)]
      ++ evs.
Proof.
  intros Hfs Hw Ho.
  unfold e4crypt_policy_get, bind, access, open, ioctl, close, LOG, PLOG, ret.
  simpl. rewrite Hfs, Hw. simpl. rewrite Hfs, Ho. simpl.
  rewrite lowest_free_not_minus_one. simpl.
  rewrite lookup_insert_eq, Hfs.
  destruct (ext4_get_policy ino) as [p|]; simpl;
    rewrite lookup_insert_eq; simpl; rewrite ?recognised_fixed_tuple;
    try destruct (bool_decide (fixed_tuple p)); simpl;
    rewrite <- ?app_assoc; simpl; eexists; reflexivity.
Qed.

Lemma set_request_fixed (policy : list char) : fixed_tuple (set_request policy).
Proof. repeat split. Qed.

(** The two mode ids of the source, as the bytes of the record. *)
Example mode_ids :
  char_of_int EXT4_ENCRYPTION_MODE_AES_256_XTS = x01
  /\ char_of_int EXT4_ENCRYPTION_MODE_AES_256_CTS = x04
  /\ char_of_int 0 = x00.
Proof. repeat split. Qed.

(** C4: every record that [e4crypt_policy_set] or [e4crypt_policy_ensure]
    hands to the kernel in a set request has version 0, contents mode 1
    (AES-256-XTS), filenames mode 4 (AES-256-CTS) and flags 0, and
    [e4crypt_policy_get] issues no set request at all; and when the
    get request succeeds with a record [p], [e4crypt_policy_get] returns 0
    with the descriptor of [p] if and only if those four fields of [p] are
    that tuple, and returns -1 with the buffer untouched otherwise. *)
Theorem fixed_tuple_written_and_required (w : world) (directory : string)
    (policy : list char) (policy_length : N) :
  (exists ps,
     kernel_writes (trace (e4crypt_policy_set directory policy policy_length w).2)
     = kernel_writes (trace w) ++ ps
     /\ Forall (fun p => version p = x00 /\ contents_encryption_mode p = x01
                         /\ filenames_encryption_mode p = x04 /\ flags p = x00)
               ps)
  /\ (exists ps,
     kernel_writes
       (trace (e4crypt_policy_ensure directory policy policy_length w).2)
     = kernel_writes (trace w) ++ ps
     /\ Forall (fun p => version p = x00 /\ contents_encryption_mode p = x01
                         /\ filenames_encryption_mode p = x04 /\ flags p = x00)
               ps)
  /\ kernel_writes (trace (e4crypt_policy_get directory policy policy_length w).2)
     = kernel_writes (trace w)
  /\ (forall ino p,
        fs w !! directory = Some ino ->
        i_writable ino = true -> i_openable ino = true ->
        ext4_get_policy ino = Some p ->
        exists r out w' fd,
          e4crypt_policy_get directory policy 8 w = (Some (r, out), w')
          /\ EvIoctl fd EXT4_IOC_GET_ENCRYPTION_POLICY zero_policy 0 ∈ trace w'
          /\ (r = 0 <->
              version p = x00 /\ contents_encryption_mode p = x01
              /\ filenames_encryption_mode p = x04 /\ flags p = x00)
          /\ (r = 0 -> out = memcpy policy (master_key_descriptor p) 8)
          /\ (r <> 0 -> r = -1 /\ out = policy)).
Proof.
  split; [ | split; [ | split]].
  - apply appends_writes, e4crypt_policy_set_appends, set_request_fixed.
  - apply appends_writes, e4crypt_policy_ensure_appends, set_request_fixed.
  - apply appends_no_writes, e4crypt_policy_get_appends.
  - intros ino p Hfs Hw Ho Hp.
    destruct (e4crypt_policy_get_run w directory ino policy Hfs Hw Ho)
      as (w' & Hrun & _).
    destruct (e4crypt_policy_get_trace w directory ino policy Hfs Hw Ho)
      as (evs & Htr).
    rewrite Hrun, Hp in Htr. simpl in Htr.
    unfold get_answer in Hrun. rewrite Hp in Hrun.
    assert (EvIoctl (lowest_free (dom (fds w))) EXT4_IOC_GET_ENCRYPTION_POLICY
                    zero_policy 0 ∈ trace w') as Hin.
    { rewrite Htr. apply list_elem_of_In, in_or_app. right.
      simpl. auto. }
    case_bool_decide as Hfix;
      eexists _, _, w', _; (split; [exact Hrun | ]); (split; [exact Hin | ]).
    + split; [split; [intros _; exact Hfix | reflexivity] | ].
      split; [reflexivity | congruence].
    + split; [split; [discriminate | intros H; contradiction] | ].
      split; [discriminate | intros _; split; reflexivity].
Qed.

Lemma fixed_tuple_written_and_required_witness :
  let w := Examples.world_of "/data/x" Examples.foreign_dir in
  exists r out w' fd,
    e4crypt_policy_get "/data/x" Examples.D2 8 w = (Some (r, out), w')
    /\ EvIoctl fd EXT4_IOC_GET_ENCRYPTION_POLICY zero_policy 0 ∈ trace w'
    /\ r = -1 /\ out = Examples.D2.
Proof.
  destruct (fixed_tuple_written_and_required
              (Examples.world_of "/data/x" Examples.foreign_dir) "/data/x"
              Examples.D2 8) as (_ & _ & _ & H).
  destruct (H Examples.foreign_dir Examples.foreign_policy
              eq_refl eq_refl eq_refl eq_refl)
    as (r & out & w' & fd & Hrun & Hin & Hiff & _ & Hfail).
  exists r, out, w', fd. split; [exact Hrun | ]. split; [exact Hin | ].
  apply Hfail. intros Hr. apply Hiff in Hr. destruct Hr as (_ & Hc & _).
  discriminate Hc.
Defined.

(** ** PolicyReconciler *)

Section Ensure.

Lemma get_result_same_fs w w' directory policy policy_length :
  fs w' = fs w ->
  get_result w' directory policy policy_length
  = get_result w directory policy policy_length.
Proof. intros H. unfold get_result. rewrite H. reflexivity. Qed.

Lemma set_request_descriptor (policy : list char) :
  length policy = 8%nat -> set_request policy = policy_record policy.
Proof.
  intros H. unfold set_request. f_equal. apply memcpy_all; [exact H | ].
  reflexivity.
Qed.

(** [e4crypt_policy_ensure] once [e4crypt_policy_get] has answered. *)
Lemma e4crypt_policy_ensure_after_get w directory policy r existing w1 :
  e4crypt_policy_get directory (uninit 8 x00) 8 w = (Some (r, existing), w1) ->
  e4crypt_policy_ensure directory policy 8 w
  = if r =? 0 then
      if memcmp policy existing 8 =? 0
      then (Some 0, emit (matches_line directory existing) w1)
      else (Some (-1), emit (conflict_line directory existing policy) w1)
    else e4crypt_policy_set directory policy 8 w1.
Proof.
  intros Hget. unfold e4crypt_policy_ensure.
  change (negb (8 =? N.of_nat EXT4_KEY_DESCRIPTOR_SIZE)%N) with false.
  cbv iota. unfold bind at 1.
  change (N.of_nat EXT4_KEY_DESCRIPTOR_SIZE) with 8%N.
  change EXT4_KEY_DESCRIPTOR_SIZE with 8%nat.
  rewrite Hget. cbn [fst snd].
  destruct (r =? 0); [ | reflexivity].
  destruct (memcmp policy existing 8 =? 0); reflexivity.
Qed.

Variables (w : world) (directory : string) (ino : inode) (policy : list char).
Hypothesis Hfs : fs w !! directory = Some ino.
Hypothesis Hw : i_writable ino = true.
Hypothesis Ho : i_openable ino = true.
Hypothesis Hlen : length policy = 8%nat.

(** The Matching path. *)
Lemma e4crypt_policy_ensure_matching :
  ext4_get_policy ino = Some (policy_record policy) ->
  exists w1,
    e4crypt_policy_ensure directory policy 8 w
    = (Some 0, emit (matches_line directory policy) w1)
    /\ fs w1 = fs w
    /\ kernel_writes (trace w1) = kernel_writes (trace w).
Proof.
  intros Hp.
  destruct (e4crypt_policy_get_run w directory ino (uninit 8 x00) Hfs Hw Ho)
    as (w1 & Hrun & Hfs1 & _).
  unfold get_answer in Hrun. rewrite Hp in Hrun.
  rewrite bool_decide_eq_true_2 in Hrun by (repeat split).
  simpl master_key_descriptor in Hrun.
  change EXT4_KEY_DESCRIPTOR_SIZE with 8%nat in Hrun.
  rewrite memcpy_all in Hrun by (exact Hlen || reflexivity).
  exists w1. rewrite (e4crypt_policy_ensure_after_get _ _ _ _ _ _ Hrun).
  rewrite memcmp_refl. simpl. split; [reflexivity | ]. split; [exact Hfs1 | ].
  pose proof (e4crypt_policy_get_appends (fun _ => False) directory
                (uninit 8 x00) 8 w) as Hk.
  rewrite Hrun in Hk. apply appends_no_writes in Hk. exact Hk.
Qed.

(** The Applying path, on a directory the emptiness check lets through. *)
Lemma e4crypt_policy_ensure_applying (ino' : inode) :
  i_listable ino = true ->
  (length (counted (i_entries ino)) <= 2)%nat ->
  ext4_get_policy ino = None ->
  ext4_process_policy ino (set_request policy) = Some ino' ->
  exists w',
    e4crypt_policy_ensure directory policy 8 w = (Some 0, w')
    /\ fs w' = <[directory := ino']> (fs w)
    /\ kernel_writes (trace w')
       = kernel_writes (trace w) ++ [set_request policy].
Proof.
  intros Hl Hcount Hp Hacc.
  destruct (e4crypt_policy_get_run w directory ino (uninit 8 x00) Hfs Hw Ho)
    as (w1 & Hrun & Hfs1 & _).
  unfold get_answer in Hrun. rewrite Hp in Hrun.
  rewrite (e4crypt_policy_ensure_after_get _ _ _ _ _ _ Hrun).
  change (-1 =? 0) with false. cbv iota.
  assert (fs w1 !! directory = Some ino) as Hfs' by (rewrite Hfs1; exact Hfs).
  destruct (e4crypt_policy_set_run w1 directory ino policy Hfs' Hw Ho Hl Hcount)
    as (w' & Hset & Hfsw' & _ & _ & Hk').
  rewrite Hacc in Hset, Hfsw'.
  exists w'. split; [exact Hset | ]. split; [rewrite Hfsw', Hfs1; reflexivity | ].
  rewrite Hk'. f_equal.
  pose proof (e4crypt_policy_get_appends (fun _ => False) directory
                (uninit 8 x00) 8 w) as Hk.
  rewrite Hrun in Hk. apply appends_no_writes in Hk. exact Hk.
Qed.

(** What the kernel's acceptance of the request says about the directory. *)
Lemma accepted_cases :
  is_Some (ext4_process_policy ino (set_request policy)) ->
  (ext4_get_policy ino = Some (policy_record policy))
  \/ (ext4_get_policy ino = None /\ i_policy ino = None
      /\ ext4_process_policy ino (set_request policy)
         = Some (with_policy (policy_record policy) ino)).
Proof.
  rewrite (set_request_descriptor policy Hlen).
  unfold ext4_process_policy, ext4_get_policy. intros [ino' H].
  destruct (i_crypt ino); simpl in *; [ | discriminate].
  destruct (i_policy ino) as [old|].
  - destruct (decide (old = policy_record policy)) as [->|]; [ | discriminate].
    left. reflexivity.
  - destruct (ext4_empty_dir ino); [ | discriminate].
    right. repeat split.
Qed.

(** The first call of [e4crypt_policy_ensure] on an empty directory whose
    kernel accepts the request. *)
Lemma e4crypt_policy_ensure_first :
  i_listable ino = true -> empty_directory ino ->
  is_Some (ext4_process_policy ino (set_request policy)) ->
  exists w1 ino1,
    e4crypt_policy_ensure directory policy 8 w = (Some 0, w1)
    /\ fs w1 !! directory = Some ino1
    /\ i_writable ino1 = true /\ i_openable ino1 = true
    /\ ext4_get_policy ino1 = Some (policy_record policy)
    /\ kernel_writes (trace w1)
       = kernel_writes (trace w)
         ++ match i_policy ino with
            | None => [policy_record policy]
            | Some _ => []
            end.
Proof.
  intros Hl [Hlist Hres] Hacc.
  destruct (accepted_cases Hacc) as [Hp | (Hp & Hnone & Hset)].
  - destruct (e4crypt_policy_ensure_matching Hp) as (w1 & Hrun & Hfs1 & Hk).
    eexists _, ino. split; [exact Hrun | ]. simpl.
    rewrite Hfs1. repeat split; try assumption.
    unfold kernel_writes in *. rewrite omap_app, Hk. simpl.
    unfold ext4_get_policy in Hp. destruct (i_crypt ino); [ | discriminate].
    rewrite Hp. reflexivity.
  - assert (length (counted (i_entries ino)) <= 2)%nat as Hcount
      by (apply counted_listing; assumption).
    destruct (e4crypt_policy_ensure_applying _ Hl Hcount Hp Hset)
      as (w1 & Hrun & Hfs1 & Hk).
    exists w1, (with_policy (policy_record policy) ino).
    split; [exact Hrun | ].
    rewrite Hfs1, lookup_insert_eq, Hk, Hnone.
    rewrite (set_request_descriptor policy Hlen).
    repeat split; try assumption.
    unfold ext4_get_policy, with_policy. simpl.
    unfold ext4_process_policy in Hset.
    destruct (i_crypt ino); [reflexivity | discriminate].
Qed.

End Ensure.

(** C1: when [e4crypt_policy_get] reads an existing policy whose 8-byte
    descriptor differs from the requested one, [e4crypt_policy_ensure]
    returns -1 after logging the mismatch (the conflict), issues no set
    request, and leaves the state of every directory as it was: the
    directory still carries the descriptor that was read, and
    [e4crypt_policy_get] reads it again. *)
Theorem ensure_conflict (w : world) (directory : string)
    (policy existing : list char) (w1 : world) :
  length policy = 8%nat -> length existing = 8%nat ->
  e4crypt_policy_get directory (uninit 8 x00) 8 w = (Some (0, existing), w1) ->
  existing <> policy ->
  let w' := emit (conflict_line directory existing policy) w1 in
  e4crypt_policy_ensure directory policy 8 w = (Some (-1), w')
  /\ kernel_writes (trace w') = kernel_writes (trace w)
  /\ fs w' = fs w
  /\ (exists ino stored,
        fs w' !! directory = Some ino /\ i_policy ino = Some stored
        /\ take 8 (master_key_descriptor stored) = existing)
  /\ (exists w2,
        e4crypt_policy_get directory (uninit 8 x00) 8 w'
        = (Some (0, existing), w2)).
Proof.
  intros Hlen Hlen' Hget Hne w'. subst w'.
  assert (fs w1 = fs w) as Hfs1.
  { pose proof (e4crypt_policy_get_same_fs directory (uninit 8 x00) 8 w) as H.
    rewrite Hget in H. exact H. }
  assert (kernel_writes (trace w1) = kernel_writes (trace w)) as Hk1.
  { pose proof (e4crypt_policy_get_appends (fun _ => False) directory
                  (uninit 8 x00) 8 w) as H.
    rewrite Hget in H. apply appends_no_writes in H. exact H. }
  destruct (e4crypt_policy_get_total w directory (uninit 8 x00) 8)
    as (w1' & Hrun & _).
  assert (get_result w directory (uninit 8 x00) 8 = (0, existing)) as Hres
    by congruence.
  clear w1' Hrun.
  split.
  { rewrite (e4crypt_policy_ensure_after_get _ _ _ _ _ _ Hget).
    change (0 =? 0) with true. cbv iota.
    destruct (memcmp policy existing 8 =? 0) eqn:E; [ | reflexivity].
    apply Z.eqb_eq in E. apply memcmp_0_eq in E; [ | assumption | assumption].
    congruence. }
  split.
  { simpl. unfold kernel_writes in *. rewrite omap_app, Hk1. simpl.
    apply app_nil_r. }
  split; [exact Hfs1 | ].
  split.
  - destruct (get_result_cases w directory (uninit 8 x00) 8)
      as [Hfail | (ino & p & _ & Hfs & _ & _ & Hp & _ & Hok)];
      rewrite Hres in *; [discriminate | ].
    exists ino, p. simpl. rewrite Hfs1. split; [exact Hfs | ].
    unfold ext4_get_policy in Hp.
    destruct (i_crypt ino); [ | discriminate]. split; [exact Hp | ].
    injection Hok as Hex. rewrite Hex. unfold memcpy.
    simpl drop. rewrite app_nil_r. reflexivity.
  - destruct (e4crypt_policy_get_total
                (emit (conflict_line directory existing policy) w1)
                directory (uninit 8 x00) 8) as (w2 & Hrun2 & _).
    rewrite (get_result_same_fs w) in Hrun2 by exact Hfs1.
    rewrite Hres in Hrun2. exists w2. exact Hrun2.
Qed.

Lemma ensure_conflict_witness :
  let w := Examples.world_of "/data/x" Examples.keyed_dir in
  let w1 := (e4crypt_policy_get "/data/x" (uninit 8 x00) 8 w).2 in
  let w' := emit (conflict_line "/data/x" Examples.D1 Examples.D2) w1 in
  e4crypt_policy_ensure "/data/x" Examples.D2 8 w = (Some (-1), w')
  /\ kernel_writes (trace w') = kernel_writes (trace w)
  /\ fs w' = fs w
  /\ (exists ino stored,
        fs w' !! "/data/x"%string = Some ino /\ i_policy ino = Some stored
        /\ take 8 (master_key_descriptor stored) = Examples.D1)
  /\ (exists w2,
        e4crypt_policy_get "/data/x" (uninit 8 x00) 8 w'
        = (Some (0, Examples.D1), w2)).
Proof.
  apply (ensure_conflict (Examples.world_of "/data/x" Examples.keyed_dir)
           "/data/x" Examples.D2 Examples.D1).
  - reflexivity.
  - reflexivity.
  - vm_compute. reflexivity.
  - discriminate.
Defined.

(** C2: for an 8-byte descriptor and an empty, writable directory that can
    be opened and listed and whose kernel accepts the set request,
    [e4crypt_policy_ensure] returns 0, and [e4crypt_policy_get] called
    next returns 0 and fills an 8-byte buffer with exactly the descriptor. *)
Theorem ensure_then_get (w : world) (directory : string) (ino : inode)
    (policy buf : list char) :
  length policy = 8%nat -> length buf = 8%nat ->
  fs w !! directory = Some ino ->
  i_writable ino = true -> i_openable ino = true -> i_listable ino = true ->
  empty_directory ino ->
  is_Some (ext4_process_policy ino (set_request policy)) ->
  exists w1 w2,
    e4crypt_policy_ensure directory policy 8 w = (Some 0, w1)
    /\ e4crypt_policy_get directory buf 8 w1 = (Some (0, policy), w2).
Proof.
  intros Hlen Hbuf Hfs Hw Ho Hl Hempty Hacc.
  destruct (e4crypt_policy_ensure_first w directory ino policy
              Hfs Hw Ho Hlen Hl Hempty Hacc)
    as (w1 & ino1 & Hrun & Hfs1 & Hw1 & Ho1 & Hp1 & _).
  destruct (e4crypt_policy_get_run w1 directory ino1 buf Hfs1 Hw1 Ho1)
    as (w2 & Hget & _).
  exists w1, w2. split; [exact Hrun | ]. rewrite Hget. f_equal. f_equal.
  unfold get_answer. rewrite Hp1.
  rewrite bool_decide_eq_true_2 by (repeat split).
  f_equal. apply memcpy_all; assumption.
Qed.

Lemma fresh_dir_empty : empty_directory Examples.fresh_dir.
Proof.
  split; [repeat split | ].
  - repeat constructor; rewrite list_elem_of_In; simpl; intuition discriminate.
  - apply list_elem_of_In. simpl. auto.
  - apply list_elem_of_In. simpl. auto.
  - intros name H. apply list_elem_of_In in H. simpl in H. unfold reserved.
    intuition auto.
Qed.

Lemma ensure_then_get_witness :
  let w := Examples.world_of "/data/x" Examples.fresh_dir in
  exists w1 w2,
    e4crypt_policy_ensure "/data/x" Examples.D2 8 w = (Some 0, w1)
    /\ e4crypt_policy_get "/data/x" (uninit 8 x00) 8 w1
       = (Some (0, Examples.D2), w2).
Proof.
  apply (ensure_then_get (Examples.world_of "/data/x" Examples.fresh_dir)
           "/data/x" Examples.fresh_dir Examples.D2 (uninit 8 x00));
    try reflexivity.
  - exact fresh_dir_empty.
  - vm_compute. eexists. reflexivity.
Defined.

(** C3, with the provisos it needs: for an 8-byte descriptor and an empty,
    writable directory that can be opened and listed and whose kernel
    accepts the set request, two calls of [e4crypt_policy_ensure] in
    sequence both return 0; the second one ends on the "matches expected
    value" line and issues no set request, and the first one issues the
    request once when the directory had no policy and not at all when it
    already carried this one. *)
Theorem ensure_idempotent (w : world) (directory : string) (ino : inode)
    (policy : list char) :
  length policy = 8%nat ->
  fs w !! directory = Some ino ->
  i_writable ino = true -> i_openable ino = true -> i_listable ino = true ->
  empty_directory ino ->
  is_Some (ext4_process_policy ino (set_request policy)) ->
  exists w1 w2,
    e4crypt_policy_ensure directory policy 8 w = (Some 0, w1)
    /\ e4crypt_policy_ensure directory policy 8 w1 = (Some 0, w2)
    /\ kernel_writes (trace w2) = kernel_writes (trace w1)
    /\ last (trace w2) = Some (matches_line directory policy)
    /\ kernel_writes (trace w1)
       = kernel_writes (trace w)
         ++ match i_policy ino with
            | None => [policy_record policy]
            | Some _ => []
            end.
Proof.
  intros Hlen Hfs Hw Ho Hl Hempty Hacc.
  destruct (e4crypt_policy_ensure_first w directory ino policy
              Hfs Hw Ho Hlen Hl Hempty Hacc)
    as (w1 & ino1 & Hrun & Hfs1 & Hw1 & Ho1 & Hp1 & Hk1).
  destruct (e4crypt_policy_ensure_matching w1 directory ino1 policy
              Hfs1 Hw1 Ho1 Hlen Hp1) as (w2 & Hrun2 & _ & Hk2).
  eexists w1, _. split; [exact Hrun | ]. split; [exact Hrun2 | ].
  simpl. split; [ | split; [apply last_snoc | exact Hk1]].
  unfold kernel_writes in *. rewrite omap_app, Hk2. simpl. apply app_nil_r.
Qed.

Lemma ensure_idempotent_witness :
  let w := Examples.world_of "/data/x" Examples.fresh_dir in
  exists w1 w2,
    e4crypt_policy_ensure "/data/x" Examples.D1 8 w = (Some 0, w1)
    /\ e4crypt_policy_ensure "/data/x" Examples.D1 8 w1 = (Some 0, w2)
    /\ kernel_writes (trace w2) = kernel_writes (trace w1)
    /\ last (trace w2) = Some (matches_line "/data/x" Examples.D1)
    /\ kernel_writes (trace w1)
       = kernel_writes (trace w) ++ [policy_record Examples.D1].
Proof.
  apply (ensure_idempotent (Examples.world_of "/data/x" Examples.fresh_dir)
           "/data/x" Examples.fresh_dir Examples.D1);
    try reflexivity.
  - exact fresh_dir_empty.
  - vm_compute. eexists. reflexivity.
Defined.

Lemma recovered_dir_empty : empty_directory Examples.recovered_dir.
Proof.
  split; [repeat split | ].
  - repeat constructor; rewrite list_elem_of_In; simpl; intuition discriminate.
  - apply list_elem_of_In. simpl. auto.
  - apply list_elem_of_In. simpl. auto.
  - intros name H. apply list_elem_of_In in H. simpl in H. unfold reserved.
    intuition auto.
Qed.

(** C3 as first stated, for every 8-byte descriptor and every empty
    directory, does not hold.  A directory that lists only ".", ".." and
    "lost+found" is empty for [is_dir_empty], but the kernel refuses the
    set request on it: both calls of [e4crypt_policy_ensure] return -1 and
    each issues the request.  On an empty directory the caller may not
    write to, both calls return -1 at the [access] check. *)
Lemma ensure_idempotent_counterexample :
  let policy := Examples.D1 in
  let run (ino : inode) :=
    let w := Examples.world_of "/data/x" ino in
    let first := e4crypt_policy_ensure "/data/x" policy 8 w in
    let second := e4crypt_policy_ensure "/data/x" policy 8 first.2 in
    (first.1, second.1, kernel_writes (trace second.2)) in
  length policy = 8%nat
  /\ empty_directory Examples.recovered_dir
  /\ i_writable Examples.recovered_dir = true
  /\ run Examples.recovered_dir
     = (Some (-1), Some (-1), [set_request policy; set_request policy])
  /\ empty_directory Examples.readonly_dir
  /\ run Examples.readonly_dir = (Some (-1), Some (-1), [])
  /\ ~ (exists w1 w2,
          e4crypt_policy_ensure "/data/x" policy 8
            (Examples.world_of "/data/x" Examples.recovered_dir) = (Some 0, w1)
          /\ e4crypt_policy_ensure "/data/x" policy 8 w1 = (Some 0, w2)).
Proof.
  split; [reflexivity | ].
  split; [exact recovered_dir_empty | ].
  split; [reflexivity | ].
  split; [vm_compute; reflexivity | ].
  split; [exact fresh_dir_empty | ].
  split; [vm_compute; reflexivity | ].
  intros (w1 & w2 & H & _).
  apply (f_equal fst) in H. vm_compute in H. discriminate H.
Qed.

(** ** Descriptors and streams that stay open *)

(** [e4crypt_policy_get] and [is_dir_empty] give back what they opened. *)
Lemma e4crypt_policy_get_releases w directory policy policy_length :
  fds (e4crypt_policy_get directory policy policy_length w).2 = fds w
  /\ streams (e4crypt_policy_get directory policy policy_length w).2
     = streams w.
Proof.
  destruct (e4crypt_policy_get_total w directory policy policy_length)
    as (w' & -> & _ & Hfds & Hst).
  split; assumption.
Qed.

(** C6 (every directory handle and listing handle is released before the
    operation returns, on every exit path) does not hold of
    [e4crypt_policy_set]: on the path that finds the directory not empty
    the function returns -1 while the descriptor it got from [open] is
    still in the table, and the trace has no [close] for it. *)
Theorem e4crypt_policy_set_leaks_descriptor :
  let w := Examples.world_of "/data/x" Examples.busy_dir in
  let out := e4crypt_policy_set "/data/x" Examples.D1 8 w in
  out.1 = Some (-1)
  /\ fds w = ∅
  /\ fds out.2 = {[ 0 := "/data/x"%string ]}
  /\ EvOpen "/data/x" dir_oflags 0 ∈ trace out.2
  /\ EvClose 0 ∉ trace out.2.
Proof.
  vm_compute. repeat split.
  - apply list_elem_of_In. simpl. auto.
  - intros H. apply list_elem_of_In in H. simpl in H.
    intuition discriminate.
Qed.

(** * Further properties *)

(** ** Every way [e4crypt_policy_set] can end *)

Ltac same_writes :=
  simpl; unfold kernel_writes; rewrite ?omap_app; simpl;
  rewrite ?app_nil_r; reflexivity.

Section SetOutcome.

Variables (w : world) (directory : string) (policy : list char).

Lemma e4crypt_policy_set_no_access :
  writable w directory = false ->
  e4crypt_policy_set directory policy 8 w
  = (Some (-1),
     emit (EvPLog ERROR ("Failed to access directory " +:+ directory))
          (emit (EvAccess directory W_OK (-1)) w)).
Proof.
  unfold writable. intros H.
  unfold e4crypt_policy_set, bind, access, PLOG, ret. simpl.
  destruct (fs w !! directory) as [ino|]; [rewrite H | ]; reflexivity.
Qed.

Lemma e4crypt_policy_set_no_open :
  writable w directory = true -> openable w directory = false ->
  e4crypt_policy_set directory policy 8 w
  = (Some (-1),
     emit (EvPLog ERROR ("Failed to open directory " +:+ directory))
          (emit (EvOpen directory dir_oflags (-1))
                (emit (EvAccess directory W_OK 0) w))).
Proof.
  unfold writable, openable. intros Hw Ho.
  destruct (fs w !! directory) as [ino|] eqn:Hfs; [ | discriminate].
  unfold e4crypt_policy_set.
  change (negb (8 =? N.of_nat EXT4_KEY_DESCRIPTOR_SIZE)%N) with false.
  cbv iota.
  unfold bind at 1, access. cbv beta zeta. rewrite Hfs, Hw.
  change (negb (0 =? 0)) with false. cbv iota.
  unfold bind at 1, open. cbv beta zeta. simpl fs. rewrite Hfs, Ho.
  reflexivity.
Qed.

(** [opendir] fails: the NULL stream goes to [readdir]. *)
Lemma is_dir_empty_unlistable (w0 : world) (ino : inode) :
  fs w0 !! directory = Some ino -> i_listable ino = false ->
  is_dir_empty directory w0 = (None, emit (EvOpendir directory None) w0).
Proof.
  intros Hfs Hl. unfold is_dir_empty, bind at 1, opendir.
  rewrite Hfs, Hl. reflexivity.
Qed.

Lemma e4crypt_policy_set_unlistable (ino : inode) :
  fs w !! directory = Some ino ->
  i_writable ino = true -> i_openable ino = true -> i_listable ino = false ->
  e4crypt_policy_set directory policy 8 w
  = (None,
     emit (EvOpendir directory None)
          (emit (EvOpen directory dir_oflags (lowest_free (dom (fds w))))
                (set_fds (<[lowest_free (dom (fds w)) := directory]> (fds w))
                         (emit (EvAccess directory W_OK 0) w)))).
Proof.
  intros Hfs Hw Ho Hl. unfold e4crypt_policy_set.
  change (negb (8 =? N.of_nat EXT4_KEY_DESCRIPTOR_SIZE)%N) with false.
  cbv iota.
  unfold bind at 1, access. cbv beta zeta. rewrite Hfs, Hw.
  change (negb (0 =? 0)) with false. cbv iota.
  unfold bind at 1, open. cbv beta zeta. simpl fs. rewrite Hfs, Ho.
  rewrite lowest_free_not_minus_one.
  unfold bind at 1. rewrite (is_dir_empty_unlistable _ ino) by assumption.
  reflexivity.
Qed.

Lemma e4crypt_policy_set_outcome (policy_length : N) :
  set_outcome w directory policy
    (e4crypt_policy_set directory policy policy_length w).1
    (e4crypt_policy_set directory policy policy_length w).2.
Proof.
  destruct (N.eq_dec policy_length 8%N) as [->|Hlen];
    [ | rewrite (e4crypt_policy_set_wrong_length w directory policy _ Hlen);
        apply SetEarly; first [reflexivity | same_writes]].
  destruct (writable w directory) eqn:Hw;
    [ | rewrite (e4crypt_policy_set_no_access Hw); apply SetEarly;
        first [reflexivity | same_writes]].
  destruct (openable w directory) eqn:Ho;
    [ | rewrite (e4crypt_policy_set_no_open Hw Ho); apply SetEarly;
        first [reflexivity | same_writes]].
  unfold writable, openable in *.
  destruct (fs w !! directory) as [ino|] eqn:Hfs; [ | discriminate].
  destruct (i_listable ino) eqn:Hl.
  - destruct (le_lt_dec (length (counted (i_entries ino))) 2) as [Hc|Hc].
    + destruct (e4crypt_policy_set_run w directory ino policy Hfs Hw Ho Hl Hc)
        as (w' & -> & Hfs' & Hfds' & Hst' & Hk'). simpl.
      destruct (ext4_process_policy ino (set_request policy)) as [ino'|] eqn:Hp.
      * eapply SetApplied; eassumption.
      * eapply SetRefused; eassumption.
    + destruct (e4crypt_policy_set_not_empty w directory ino policy
                  Hfs Hw Ho Hl Hc) as (w' & -> & Hfs' & Hfds' & Hk').
      eapply SetNotEmpty; eassumption.
  - rewrite (e4crypt_policy_set_unlistable ino) by assumption.
    eapply SetCrash; try eassumption; first [reflexivity | same_writes].
Qed.

End SetOutcome.

(** ** What the kernel's acceptance leaves behind *)

Lemma ext4_process_policy_some (ino ino' : inode) (eep : ext4_encryption_policy) :
  ext4_process_policy ino eep = Some ino' ->
  i_crypt ino = true
  /\ ((i_policy ino = None /\ ino' = with_policy eep ino)
      \/ (i_policy ino = Some eep /\ ino' = ino)).
Proof.
  unfold ext4_process_policy.
  destruct (i_crypt ino); simpl; [ | discriminate].
  destruct (bool_decide (version eep = x00)); simpl; [ | discriminate].
  destruct (i_policy ino) as [old|].
  - destruct (decide (old = eep)) as [->|]; [ | discriminate].
    intros [= <-]. auto.
  - destruct (ext4_empty_dir ino); [ | discriminate].
    intros [= <-]. auto.
Qed.

Lemma ext4_process_policy_keeps (ino ino' : inode) (eep : ext4_encryption_policy) :
  ext4_process_policy ino eep = Some ino' ->
  i_writable ino' = i_writable ino /\ i_openable ino' = i_openable ino
  /\ ext4_get_policy ino' = Some eep.
Proof.
  intros H. destruct (ext4_process_policy_some _ _ _ H)
    as (Hc & [(Hp & ->) | (Hp & ->)]); unfold ext4_get_policy; simpl;
    rewrite Hc; auto.
Qed.

(** ** [e4crypt_policy_ensure] after its call of [e4crypt_policy_get] *)

Lemma e4crypt_policy_ensure_split (w : world) (directory : string)
    (policy : list char) :
  exists w1 existing,
    fs w1 = fs w /\ fds w1 = fds w /\ streams w1 = streams w
    /\ kernel_writes (trace w1) = kernel_writes (trace w)
    /\ ((get_result w directory (uninit 8 x00) 8 = (0, existing)
         /\ memcmp policy existing 8 = 0
         /\ e4crypt_policy_ensure directory policy 8 w
            = (Some 0, emit (matches_line directory existing) w1))
        \/ (get_result w directory (uninit 8 x00) 8 = (0, existing)
            /\ memcmp policy existing 8 <> 0
            /\ e4crypt_policy_ensure directory policy 8 w
               = (Some (-1), emit (conflict_line directory existing policy) w1))
        \/ (get_result w directory (uninit 8 x00) 8 = (-1, uninit 8 x00)
            /\ e4crypt_policy_ensure directory policy 8 w
               = e4crypt_policy_set directory policy 8 w1)).
Proof.
  destruct (e4crypt_policy_get_total w directory (uninit 8 x00) 8)
    as (w1 & Hget & Hfs & Hfds & Hst).
  assert (kernel_writes (trace w1) = kernel_writes (trace w)) as Hk.
  { pose proof (e4crypt_policy_get_appends (fun _ => False) directory
                  (uninit 8 x00) 8 w) as H.
    rewrite Hget in H. apply appends_no_writes in H. exact H. }
  destruct (get_result w directory (uninit 8 x00) 8) as [r existing] eqn:Hres.
  exists w1, existing. repeat (split; [assumption | ]).
  rewrite (e4crypt_policy_ensure_after_get _ _ _ _ _ _ Hget).
  destruct (get_result_cases w directory (uninit 8 x00) 8)
    as [Hfail | (ino & p & _ & _ & _ & _ & _ & _ & Hok)];
    rewrite Hres in *.
  - injection Hfail as -> ->. right. right. split; reflexivity.
  - injection Hok as -> Hex. change (0 =? 0) with true. cbv iota.
    destruct (memcmp policy existing 8 =? 0) eqn:E.
    + apply Z.eqb_eq in E. left. repeat split; assumption.
    + apply Z.eqb_neq in E. right. left. repeat split; assumption.
Qed.

(** ** [e4crypt_policy_set] alone *)



Lemma e4crypt_policy_set_applied_get (w w1 : world) (directory : string)
    (policy buf : list char) (policy_length : N) :
  length policy = 8%nat -> length buf = 8%nat ->
  e4crypt_policy_set directory policy policy_length w = (Some 0, w1) ->
  exists w2, e4crypt_policy_get directory buf 8 w1 = (Some (0, policy), w2).
Proof.
  intros Hlen Hbuf Hset.
  pose proof (e4crypt_policy_set_outcome w directory policy policy_length) as H.
  rewrite Hset in H. simpl in H.
  inversion H as [ | | | | ino ino' w' Hfs Hw Ho _ Hp Hfs1 _ _ _]; subst.
  destruct (ext4_process_policy_keeps _ _ _ Hp) as (Hw' & Ho' & Hget).
  assert (fs w1 !! directory = Some ino') as Hfs'
    by (rewrite Hfs1; apply lookup_insert_eq).
  destruct (e4crypt_policy_get_run w1 directory ino' buf Hfs'
              ltac:(congruence) ltac:(congruence)) as (w2 & Hrun & _).
  exists w2. rewrite Hrun. f_equal. f_equal.
  unfold get_answer. rewrite Hget.
  rewrite bool_decide_eq_true_2 by apply set_request_fixed.
  rewrite (set_request_descriptor policy Hlen). simpl.
  f_equal. apply memcpy_all; assumption.
Qed.

(** X2: whenever [e4crypt_policy_set] returns 0 for an 8-byte descriptor,
    [e4crypt_policy_get] called next on the same directory returns 0 and
    fills an 8-byte buffer with that descriptor. *)
Theorem set_then_get (w w1 : world) (directory : string)
    (policy buf : list char) (policy_length : N) :
  length policy = 8%nat -> length buf = 8%nat ->
  e4crypt_policy_set directory policy policy_length w = (Some 0, w1) ->
  exists w2, e4crypt_policy_get directory buf 8 w1 = (Some (0, policy), w2).
Proof.
  intros Hlen Hbuf Hset.
  exact (e4crypt_policy_set_applied_get w w1 directory policy buf
           policy_length Hlen Hbuf Hset).
Qed.

Lemma set_then_get_witness :
  let w := Examples.world_of "/data/x" Examples.fresh_dir in
  exists w2,
    e4crypt_policy_get "/data/x" (uninit 8 x00) 8
      (e4crypt_policy_set "/data/x" Examples.D2 8 w).2
    = (Some (0, Examples.D2), w2).
Proof.
  apply (set_then_get (Examples.world_of "/data/x" Examples.fresh_dir) _
           "/data/x" Examples.D2 (uninit 8 x00) 8); reflexivity.
Defined.

(** X3: [e4crypt_policy_set] and [e4crypt_policy_ensure] change the state
    of no directory but the one they are given, and that one only by
    recording the requested policy on a directory that had none, in a call
    that returns 0; every other run, the failing and the crashing ones
    included, leaves the state of every directory as it was. *)
Theorem set_and_ensure_frame (w : world) (directory : string)
    (policy : list char) (policy_length : N) :
  let applied (out : option Z * world) :=
    fs out.2 = fs w
    \/ (out.1 = Some 0
        /\ exists ino,
             fs w !! directory = Some ino /\ i_policy ino = None
             /\ fs out.2
                = <[directory := with_policy (set_request policy) ino]> (fs w)) in
  applied (e4crypt_policy_set directory policy policy_length w)
  /\ applied (e4crypt_policy_ensure directory policy policy_length w).
Proof.
  assert (forall w0 n,
    fs w0 = fs w ->
    let out := e4crypt_policy_set directory policy n w0 in
    fs out.2 = fs w
    \/ (out.1 = Some 0
        /\ exists ino,
             fs w !! directory = Some ino /\ i_policy ino = None
             /\ fs out.2
                = <[directory := with_policy (set_request policy) ino]> (fs w)))
    as Hset.
  { intros w0 n H0 out. subst out.
    destruct (e4crypt_policy_set_outcome w0 directory policy n)
      as [w' Hfs | ino w' _ _ Hfs | ino w' _ _ Hfs | ino w' _ _ _ Hfs
         | ino ino' w' Hino _ _ _ Hp Hfs]; try (left; congruence).
    rewrite H0 in Hino, Hfs.
    destruct (ext4_process_policy_some _ _ _ Hp) as (_ & [(Hn & ->) | (_ & ->)]).
    - right. split; [reflexivity | ]. exists ino. auto.
    - left. rewrite Hfs. apply insert_id. exact Hino. }
  intros applied. subst applied. split; [apply Hset; reflexivity | ].
  destruct (N.eq_dec policy_length 8%N) as [->|Hlen];
    [ | rewrite (e4crypt_policy_ensure_wrong_length w directory policy _ Hlen);
        left; reflexivity].
  destruct (e4crypt_policy_ensure_split w directory policy)
    as (w1 & existing & Hfs1 & _ & _ & _
        & [(_ & _ & ->) | [(_ & _ & ->) | (_ & ->)]]);
    [left; exact Hfs1 | left; exact Hfs1 | apply Hset; exact Hfs1].
Qed.

(** X4: [e4crypt_policy_get] has no lasting effect on any world, whatever
    its arguments: the state of every directory, the descriptor table and
    the directory streams are as before the call, and no set request was
    issued.  In particular the descriptor it opens is closed on every
    path. *)
Theorem get_leaves_world (w : world) (directory : string)
    (policy : list char) (policy_length : N) :
  let w' := (e4crypt_policy_get directory policy policy_length w).2 in
  fs w' = fs w /\ fds w' = fds w /\ streams w' = streams w
  /\ kernel_writes (trace w') = kernel_writes (trace w).
Proof.
  intros w'. subst w'.
  pose proof (e4crypt_policy_get_appends (fun _ => False) directory policy
                policy_length w) as Hk.
  apply appends_no_writes in Hk.
  destruct (e4crypt_policy_get_total w directory policy policy_length)
    as (w' & Hrun & Hfs & Hfds & Hst).
  rewrite Hrun in *. auto.
Qed.

(** X5: a call of [e4crypt_policy_set] or [e4crypt_policy_ensure] that
    returns on a directory where at most two names are counted leaves the
    descriptor table and the directory streams as it found them: outside
    the not-empty branch every [open] is paired with a [close] and every
    [opendir] with a [closedir]. *)
Theorem set_and_ensure_release (w : world) (directory : string)
    (policy : list char) (policy_length : N) (r : Z) (w' : world) :
  (forall ino, fs w !! directory = Some ino ->
               (length (counted (i_entries ino)) <= 2)%nat) ->
  e4crypt_policy_set directory policy policy_length w = (Some r, w')
  \/ e4crypt_policy_ensure directory policy policy_length w = (Some r, w') ->
  fds w' = fds w /\ streams w' = streams w.
Proof.
  intros Hcount.
  assert (forall w0 n,
    fs w0 = fs w -> fds w0 = fds w -> streams w0 = streams w ->
    e4crypt_policy_set directory policy n w0 = (Some r, w') ->
    fds w' = fds w /\ streams w' = streams w) as Hset.
  { intros w0 n H0 H1 H2 Hrun.
    pose proof (e4crypt_policy_set_outcome w0 directory policy n) as H.
    rewrite Hrun in H. simpl in H.
    inversion H as [ ? ? Hfds Hst | | ino ? Hino Hc | ino ? ? ? ? ? Hfds Hst
                   | ino ino' ? ? ? ? ? ? ? Hfds Hst ]; subst;
      try (split; congruence).
    rewrite H0 in Hino. specialize (Hcount ino Hino). lia. }
  intros [Hrun | Hrun]; [apply (Hset w policy_length); auto | ].
  destruct (N.eq_dec policy_length 8%N) as [->|Hlen].
  - destruct (e4crypt_policy_ensure_split w directory policy)
      as (w1 & existing & Hfs1 & Hfds1 & Hst1 & _
          & [(_ & _ & He) | [(_ & _ & He) | (_ & He)]]);
      rewrite He in Hrun.
    + injection Hrun as _ <-. auto.
    + injection Hrun as _ <-. auto.
    + apply (Hset w1 8%N); assumption.
  - rewrite (e4crypt_policy_ensure_wrong_length w directory policy _ Hlen)
      in Hrun.
    injection Hrun as _ <-. auto.
Qed.

Lemma set_and_ensure_release_witness :
  let w := Examples.world_of "/data/x" Examples.fresh_dir in
  let w' := (e4crypt_policy_ensure "/data/x" Examples.D1 8 w).2 in
  fds w' = fds w /\ streams w' = streams w.
Proof.
  apply (set_and_ensure_release
           (Examples.world_of "/data/x" Examples.fresh_dir) "/data/x"
           Examples.D1 8 0).
  - intros ino H. vm_compute in H. injection H as <-. vm_compute. lia.
  - right. reflexivity.
Defined.

(** X6: [is_dir_empty] does not test the stream it gets from [opendir].
    When [opendir] fails on a directory that [access] and [open] accepted,
    [e4crypt_policy_set] hands the NULL stream to [readdir] and the process
    crashes there: nothing is returned, no set request has been issued, and
    the descriptor from [open] was never closed. *)
Theorem set_crashes_on_null_stream (w : world) (directory : string)
    (ino : inode) (policy : list char) :
  fs w !! directory = Some ino ->
  i_writable ino = true -> i_openable ino = true -> i_listable ino = false ->
  let out := e4crypt_policy_set directory policy 8 w in
  out.1 = None
  /\ last (trace out.2) = Some (EvOpendir directory None)
  /\ fds out.2 = <[lowest_free (dom (fds w)) := directory]> (fds w)
  /\ kernel_writes (trace out.2) = kernel_writes (trace w)
  /\ fs out.2 = fs w.
Proof.
  intros Hfs Hw Ho Hl out. subst out.
  rewrite (e4crypt_policy_set_unlistable w directory policy ino)
    by assumption.
  simpl. split; [reflexivity | ]. split; [apply last_snoc | ].
  split; [reflexivity | ]. split; [same_writes | reflexivity].
Qed.

Lemma set_crashes_on_null_stream_witness :
  let w := Examples.world_of "/data/x" Examples.unlistable_dir in
  let out := e4crypt_policy_set "/data/x" Examples.D1 8 w in
  out.1 = None
  /\ last (trace out.2) = Some (EvOpendir "/data/x" None)
  /\ fds out.2 = <[lowest_free (dom (fds w)) := "/data/x"%string]> (fds w)
  /\ kernel_writes (trace out.2) = kernel_writes (trace w)
  /\ fs out.2 = fs w.
Proof.
  apply (set_crashes_on_null_stream
           (Examples.world_of "/data/x" Examples.unlistable_dir) "/data/x"
           Examples.unlistable_dir Examples.D1); reflexivity.
Defined.

(** X7: one call of [e4crypt_policy_set] or [e4crypt_policy_ensure] issues
    at most one set request, and the record of that request carries the
    first 8 bytes of the caller's descriptor under the fixed tuple. *)
Theorem at_most_one_set_request (w : world) (directory : string)
    (policy : list char) (policy_length : N) :
  let one (out : option Z * world) :=
    kernel_writes (trace out.2) = kernel_writes (trace w)
    \/ kernel_writes (trace out.2)
       = kernel_writes (trace w)
         ++ [mk_policy x00 x01 x04 x00
                       (take 8 policy ++ drop 8 (replicate 8 x00))] in
  one (e4crypt_policy_set directory policy policy_length w)
  /\ one (e4crypt_policy_ensure directory policy policy_length w).
Proof.
  assert (forall w0 n,
    kernel_writes (trace w0) = kernel_writes (trace w) ->
    let out := e4crypt_policy_set directory policy n w0 in
    kernel_writes (trace out.2) = kernel_writes (trace w)
    \/ kernel_writes (trace out.2)
       = kernel_writes (trace w) ++ [set_request policy]) as Hset.
  { intros w0 n H0 out. subst out.
    destruct (e4crypt_policy_set_outcome w0 directory policy n)
      as [w' _ _ _ Hk | ino w' _ _ _ _ Hk | ino w' _ _ _ _ Hk
         | ino w' _ _ _ _ _ _ Hk | ino ino' w' _ _ _ _ _ _ _ _ Hk];
      rewrite Hk, H0; auto. }
  intros one. subst one. split; [apply Hset; reflexivity | ].
  destruct (N.eq_dec policy_length 8%N) as [->|Hlen];
    [ | rewrite (e4crypt_policy_ensure_wrong_length w directory policy _ Hlen);
        left; same_writes].
  destruct (e4crypt_policy_ensure_split w directory policy)
    as (w1 & existing & _ & _ & _ & Hk1
        & [(_ & _ & ->) | [(_ & _ & ->) | (_ & ->)]]);
    [ left | left | apply Hset; exact Hk1 ];
    simpl; unfold kernel_writes in *; rewrite omap_app, Hk1; simpl;
    apply app_nil_r.
Qed.

(** X8: a policy whose version, modes or flags are not the fixed tuple is
    no conflict for [e4crypt_policy_ensure]: it takes the directory for one
    without a policy and, when at most two names are counted, issues the
    set request.  The kernel refuses it, so the call returns -1 and the
    policy found stays in place. *)
Theorem ensure_on_unrecognised_policy (w : world) (directory : string)
    (ino : inode) (p : ext4_encryption_policy) (policy : list char) :
  fs w !! directory = Some ino ->
  i_writable ino = true -> i_openable ino = true -> i_listable ino = true ->
  (length (counted (i_entries ino)) <= 2)%nat ->
  i_policy ino = Some p -> ~ fixed_tuple p ->
  exists w',
    e4crypt_policy_ensure directory policy 8 w = (Some (-1), w')
    /\ kernel_writes (trace w')
       = kernel_writes (trace w) ++ [set_request policy]
    /\ fs w' = fs w.
Proof.
  intros Hfs Hw Ho Hl Hc Hp Hfix.
  assert (ext4_process_policy ino (set_request policy) = None) as Hrefuse.
  { destruct (ext4_process_policy ino (set_request policy)) as [ino'|] eqn:E;
      [ | reflexivity].
    destruct (ext4_process_policy_some _ _ _ E) as (_ & [(Hn & _) | (Hs & _)]);
      [congruence | ].
    exfalso. apply Hfix. assert (p = set_request policy) as -> by congruence.
    apply set_request_fixed. }
  assert (get_result w directory (uninit 8 x00) 8 = (-1, uninit 8 x00)) as Hres.
  { unfold get_result. simpl negb. cbv iota. rewrite Hfs, Hw, Ho. simpl.
    unfold get_answer, ext4_get_policy. destruct (i_crypt ino); [ | reflexivity].
    rewrite Hp. rewrite bool_decide_eq_false_2 by exact Hfix. reflexivity. }
  destruct (e4crypt_policy_ensure_split w directory policy)
    as (w1 & existing & Hfs1 & _ & _ & Hk1
        & [(Hr & _) | [(Hr & _) | (_ & ->)]]);
    [rewrite Hres in Hr; discriminate | rewrite Hres in Hr; discriminate | ].
  assert (fs w1 !! directory = Some ino) as Hfs' by (rewrite Hfs1; exact Hfs).
  destruct (e4crypt_policy_set_run w1 directory ino policy Hfs' Hw Ho Hl Hc)
    as (w' & Hset & Hfsw' & _ & _ & Hk').
  rewrite Hrefuse in Hset, Hfsw'.
  exists w'. split; [exact Hset | ]. split; congruence.
Qed.

Lemma ensure_on_unrecognised_policy_witness :
  let w := Examples.world_of "/data/x" Examples.foreign_dir in
  exists w',
    e4crypt_policy_ensure "/data/x" Examples.D1 8 w = (Some (-1), w')
    /\ kernel_writes (trace w')
       = kernel_writes (trace w) ++ [set_request Examples.D1]
    /\ fs w' = fs w.
Proof.
  apply (ensure_on_unrecognised_policy
           (Examples.world_of "/data/x" Examples.foreign_dir) "/data/x"
           Examples.foreign_dir Examples.foreign_policy Examples.D1);
    try reflexivity.
  intros (_ & H & _). discriminate H.
Defined.

(** X9: whenever [e4crypt_policy_ensure] returns 0 for an 8-byte
    descriptor, on a directory whose recorded policy (if any) holds 8
    descriptor bytes, [e4crypt_policy_get] called next returns 0 and fills
    an 8-byte buffer with that descriptor: a 0 from ensure means the
    directory is bound to the requested key, by either path. *)
Theorem ensure_success_means_bound (w w1 : world) (directory : string)
    (policy buf : list char) (policy_length : N) :
  length policy = 8%nat -> length buf = 8%nat ->
  (forall ino, fs w !! directory = Some ino -> descriptor_sized ino) ->
  e4crypt_policy_ensure directory policy policy_length w = (Some 0, w1) ->
  exists w2, e4crypt_policy_get directory buf 8 w1 = (Some (0, policy), w2).
Proof.
  intros Hlen Hbuf Hsized Hrun.
  destruct (N.eq_dec policy_length 8%N) as [->|Hne];
    [ | rewrite (e4crypt_policy_ensure_wrong_length w directory policy _ Hne)
          in Hrun; discriminate].
  destruct (e4crypt_policy_ensure_split w directory policy)
    as (w0 & existing & Hfs0 & _ & _ & _
        & [(Hres & Hcmp & He) | [(_ & _ & He) | (_ & He)]]);
    rewrite He in Hrun.
  - injection Hrun as <-.
    destruct (get_result_cases w directory (uninit 8 x00) 8)
      as [Hfail | (ino & p & _ & Hfs & Hw & Ho & Hp & Hfix & Hok)];
      rewrite Hres in *; [discriminate | ].
    assert (length (master_key_descriptor p) = 8%nat) as Hd.
    { apply (Hsized ino Hfs). unfold ext4_get_policy in Hp.
      destruct (i_crypt ino); [exact Hp | discriminate]. }
    assert (existing = master_key_descriptor p) as ->.
    { injection Hok as ->. apply memcpy_all; [exact Hd | reflexivity]. }
    apply memcmp_0_eq in Hcmp; [ | assumption | assumption].
    assert (fs (emit (matches_line directory (master_key_descriptor p)) w0)
              !! directory = Some ino) as Hfs' by (simpl; rewrite Hfs0; exact Hfs).
    destruct (e4crypt_policy_get_run _ directory ino buf Hfs' Hw Ho)
      as (w2 & Hget & _).
    exists w2. rewrite Hget. f_equal. f_equal.
    unfold get_answer. rewrite Hp.
    rewrite bool_decide_eq_true_2 by exact Hfix.
    f_equal. rewrite Hcmp. apply memcpy_all; assumption.
  - discriminate.
  - exact (e4crypt_policy_set_applied_get w0 w1 directory policy buf 8
             Hlen Hbuf Hrun).
Qed.

Lemma ensure_success_means_bound_witness :
  let w := Examples.world_of "/data/x" Examples.keyed_dir in
  exists w2,
    e4crypt_policy_get "/data/x" (uninit 8 x00) 8
      (e4crypt_policy_ensure "/data/x" Examples.D1 8 w).2
    = (Some (0, Examples.D1), w2).
Proof.
  apply (ensure_success_means_bound
           (Examples.world_of "/data/x" Examples.keyed_dir) _
           "/data/x" Examples.D1 (uninit 8 x00) 8); try reflexivity.
  intros ino H p Hp. vm_compute in H. injection H as <-.
  injection Hp as <-. reflexivity.
Defined.

(** ** PolicyCodec, read back *)

Lemma unhex_byte (c : char) :
  char_of_int (Z.of_N (16 * unhex_digit (hex_digit (hi_nibble c))
                       + unhex_digit (hex_digit (lo_nibble c)))) = c.
Proof. destruct c; reflexivity. Qed.

Lemma unhex_hex_of (policy : list char) : unhex (hex_of policy) = policy.
Proof.
  induction policy as [|c policy IH]; [reflexivity | ].
  unfold hex_of. simpl. fold (hex_of policy). rewrite unhex_byte, IH.
  reflexivity.
Qed.

Lemma policy_to_hex_text (policy : list char) (hex : list ascii) :
  length policy = 8%nat -> length hex = 17%nat ->
  String.list_ascii_of_string (c_str (policy_to_hex policy hex))
  = hex_of policy.
Proof.
  intros Hp Hh. rewrite (policy_to_hex_eq policy hex Hp Hh).
  rewrite c_str_lower by apply hex_of_lower.
  apply String.list_ascii_of_string_of_list_ascii.
Qed.

(** X10: the string [policy_to_hex] produces determines the descriptor:
    reading its 16 digits back pair by pair gives the 8 bytes that went in,
    so two different descriptors never appear in the log as the same
    string. *)
Theorem policy_to_hex_round_trip (policy other : list char)
    (hex hex' : list ascii) :
  length policy = 8%nat -> length other = 8%nat ->
  length hex = 17%nat -> length hex' = 17%nat ->
  unhex (String.list_ascii_of_string (c_str (policy_to_hex policy hex)))
  = policy
  /\ (c_str (policy_to_hex policy hex) = c_str (policy_to_hex other hex') ->
      policy = other).
Proof.
  intros Hp Ho Hh Hh'.
  rewrite (policy_to_hex_text policy hex Hp Hh).
  split; [apply unhex_hex_of | ].
  intros Heq. apply (f_equal String.list_ascii_of_string) in Heq.
  rewrite (policy_to_hex_text policy hex Hp Hh),
    (policy_to_hex_text other hex' Ho Hh') in Heq.
  rewrite <- (unhex_hex_of policy), <- (unhex_hex_of other). congruence.
Qed.

Lemma policy_to_hex_round_trip_witness :
  let hex := uninit 17 Ascii.zero in
  unhex (String.list_ascii_of_string (c_str (policy_to_hex Examples.D2 hex)))
  = Examples.D2
  /\ (c_str (policy_to_hex Examples.D2 hex)
      = c_str (policy_to_hex Examples.D1 hex) ->
      Examples.D2 = Examples.D1).
Proof.
  apply (policy_to_hex_round_trip Examples.D2 Examples.D1
           (uninit 17 Ascii.zero) (uninit 17 Ascii.zero)); reflexivity.
Defined.

(** ** DirectoryGuard, on any listing *)

(** The loop stops reading at the third counted name. *)
Lemma is_dir_empty_loop_calls (l : list string) :
  forall (fuel : nat) (d n : Z) (w : world),
    streams w !! d = Some l -> (length l < fuel)%nat -> 0 <= n <= 2 ->
    exists evs,
      trace (is_dir_empty_loop fuel (Some d) n w).2 = trace w ++ evs
      /\ (readdir_calls evs
          <= Z.to_nat (3 - n)
             + length (filter (fun name => name = "lost+found"%string) l))%nat.
Proof.
  induction l as [|name rest IH]; intros fuel d n w Hs Hfuel Hn;
    (destruct fuel as [|fuel]; [simpl in Hfuel; lia | ]);
    simpl is_dir_empty_loop; unfold bind, readdir; rewrite Hs.
  - exists [EvReaddir d None]. split; [reflexivity | ].
    unfold readdir_calls. simpl. lia.
  - rewrite strcmp_eq. simpl in Hfuel.
    set (w1 := emit (EvReaddir d (Some name))
                    (set_streams (<[d := rest]> (streams w)) w)).
    assert (streams w1 !! d = Some rest) as Hs1
      by (simpl; apply lookup_insert_eq).
    assert (trace w1 = trace w ++ [EvReaddir d (Some name)]) as Ht1
      by reflexivity.
    case_bool_decide as Hname.
    + subst name. rewrite filter_cons_True by reflexivity.
      destruct (IH fuel d n w1 Hs1 ltac:(lia) Hn) as (evs & Ht & Hc).
      exists (EvReaddir d (Some "lost+found"%string) :: evs).
      rewrite Ht, Ht1, <- app_assoc. split; [reflexivity | ].
      unfold readdir_calls in *. rewrite filter_cons_True by exact I.
      simpl length. lia.
    + rewrite filter_cons_False by exact Hname.
      destruct (n + 1 >? 2) eqn:Hgt.
      * exists [EvReaddir d (Some name)]. split; [reflexivity | ].
        unfold readdir_calls. simpl. lia.
      * assert (0 <= n + 1 <= 2) as Hn' by lia.
        destruct (IH fuel d (n + 1) w1 Hs1 ltac:(lia) Hn') as (evs & Ht & Hc).
        exists (EvReaddir d (Some name) :: evs).
        rewrite Ht, Ht1, <- app_assoc. split; [reflexivity | ].
        unfold readdir_calls in *. rewrite filter_cons_True by exact I.
        simpl length. lia.
Qed.

(** X11: on any listing, with or without dot entries and whatever the
    order, [is_dir_empty] answers by count alone: true exactly when at most
    two names differ from "lost+found".  It closes its stream and leaves the
    directories, the descriptor table and the other streams as they were. *)
Theorem is_dir_empty_counts_names (w : world) (dirname : string) (ino : inode) :
  fs w !! dirname = Some ino -> i_listable ino = true ->
  exists w',
    is_dir_empty dirname w
    = (Some (if (length (filter (fun name => name <> "lost+found"%string)
                                (i_entries ino)) <=? 2)%nat
             then 1 else 0), w')
    /\ fs w' = fs w /\ fds w' = fds w /\ streams w' = streams w.
Proof.
  intros Hfs Hl.
  destruct (is_dir_empty_run w dirname ino Hfs Hl)
    as (w' & Hrun & Hfs' & Hfds' & Hst' & _).
  exists w'. auto.
Qed.

Lemma is_dir_empty_counts_names_witness :
  let w := Examples.world_of "/data/x" Examples.dotless_dir in
  exists w',
    is_dir_empty "/data/x" w = (Some 1, w')
    /\ fs w' = fs w /\ fds w' = fds w /\ streams w' = streams w.
Proof.
  apply (is_dir_empty_counts_names
           (Examples.world_of "/data/x" Examples.dotless_dir) "/data/x"
           Examples.dotless_dir); reflexivity.
Defined.

(** X12: [is_dir_empty] stops reading at the third counted name: it calls
    [readdir] at most three times plus once per "lost+found" entry, however
    many entries the directory has. *)
Theorem is_dir_empty_stops_early (w : world) (dirname : string) (ino : inode) :
  fs w !! dirname = Some ino -> i_listable ino = true ->
  exists evs,
    trace (is_dir_empty dirname w).2 = trace w ++ evs
    /\ (readdir_calls evs
        <= 3 + length (filter (fun name => name = "lost+found"%string)
                              (i_entries ino)))%nat.
Proof.
  intros Hfs Hl.
  unfold is_dir_empty, bind at 1, opendir. rewrite Hfs, Hl.
  set (d := lowest_free (dom (streams w))).
  set (w0 := emit _ _).
  assert (streams w0 !! d = Some (i_entries ino)) as Hs
    by (simpl; apply lookup_insert_eq).
  unfold bind at 1, pending. rewrite Hs. simpl default.
  destruct (is_dir_empty_loop_calls (i_entries ino)
              (S (length (i_entries ino))) d 0 w0 Hs ltac:(lia) ltac:(lia))
    as (evs & Ht & Hc).
  destruct (is_dir_empty_loop_run (i_entries ino)
              (S (length (i_entries ino))) d 0 w0 Hs ltac:(lia))
    as (n' & l' & w' & Hrun & _ & _ & _ & Hst').
  rewrite Hrun in *. simpl in Ht.
  unfold bind, closedir, ret. rewrite Hst', lookup_insert_eq. simpl.
  exists (EvOpendir dirname (Some d) :: evs ++ [EvClosedir d]).
  rewrite Ht. simpl. rewrite <- !app_assoc. split; [reflexivity | ].
  unfold readdir_calls in *. rewrite filter_cons_False by (intros []).
  rewrite filter_app, length_app. simpl. simpl in Hc. lia.
Qed.

Lemma is_dir_empty_stops_early_witness :
  let w := Examples.world_of "/data/x" Examples.crowded_dir in
  exists evs,
    trace (is_dir_empty "/data/x" w).2 = trace w ++ evs
    /\ (readdir_calls evs <= 3 + 0)%nat.
Proof.
  apply (is_dir_empty_stops_early
           (Examples.world_of "/data/x" Examples.crowded_dir) "/data/x"
           Examples.crowded_dir); reflexivity.
Defined.

(** ** Permissions, seen from [e4crypt_policy_ensure] *)

(** X13: on a directory the caller may not write to (or that does not
    exist) [e4crypt_policy_ensure] returns -1 after two refused
    [access(W_OK)] checks, the one of [e4crypt_policy_get] and the one of
    [e4crypt_policy_set], each with its log line; it never opens the
    directory and issues no request. *)
Theorem ensure_checks_access_twice (w : world) (directory : string)
    (policy : list char) :
  writable w directory = false ->
  let out := e4crypt_policy_ensure directory policy 8 w in
  out.1 = Some (-1)
  /\ trace out.2
     = trace w
       ++ [EvAccess directory W_OK (-1);
           EvPLog ERROR ("Failed to access directory " +:+ directory);
           EvAccess directory W_OK (-1);
           EvPLog ERROR ("Failed to access directory " +:+ directory)]
  /\ fds out.2 = fds w.
Proof.
  intros Hno out. subst out.
  rewrite (e4crypt_policy_ensure_after_get w directory policy _ _ _
             (e4crypt_policy_get_no_access w directory (uninit 8 x00) Hno)).
  change (-1 =? 0) with false. cbv iota.
  rewrite e4crypt_policy_set_no_access by exact Hno.
  simpl. rewrite <- !app_assoc. repeat split.
Qed.

Lemma ensure_checks_access_twice_witness :
  let w := Examples.world_of "/data/x" Examples.readonly_dir in
  let out := e4crypt_policy_ensure "/data/x" Examples.D1 8 w in
  out.1 = Some (-1)
  /\ trace out.2
     = trace w
       ++ [EvAccess "/data/x" W_OK (-1);
           EvPLog ERROR "Failed to access directory /data/x";
           EvAccess "/data/x" W_OK (-1);
           EvPLog ERROR "Failed to access directory /data/x"]
  /\ fds out.2 = fds w.
Proof.
  apply (ensure_checks_access_twice
           (Examples.world_of "/data/x" Examples.readonly_dir) "/data/x"
           Examples.D1).
  reflexivity.
Defined.

(** ** No return of -1 without a log line *)

Section Logging.

Lemma logged_app_r (sev : severity) (evs1 evs2 : list event) :
  logged sev evs2 -> logged sev (evs1 ++ evs2).
Proof.
  intros (msg & [H | H]); exists msg; [left | right];
    apply elem_of_app; right; exact H.
Qed.

Ltac find_log :=
  unfold logged; eexists;
  first [ solve [left; try (apply elem_of_app; right);
                 apply list_elem_of_In; simpl; eauto 10]
        | solve [right; try (apply elem_of_app; right);
                 apply list_elem_of_In; simpl; eauto 10] ].

Lemma appends_any (w w' : world) :
  appends (write_of (fun _ => True)) w w' ->
  exists evs, trace w' = trace w ++ evs.
Proof. intros (evs & H & _). exists evs. exact H. Qed.

Lemma e4crypt_policy_get_logs (w : world) (directory : string)
    (policy : list char) (policy_length : N) :
  exists evs,
    trace (e4crypt_policy_get directory policy policy_length w).2
    = trace w ++ evs
    /\ ((get_result w directory policy policy_length).1 <> 0 ->
        logged ERROR evs \/ logged WARNING evs).
Proof.
  unfold get_result.
  destruct (N.eq_dec policy_length 8%N) as [->|Hlen].
  - change (negb (8 =? N.of_nat EXT4_KEY_DESCRIPTOR_SIZE)%N) with false.
    cbv iota.
    destruct (writable w directory) eqn:Hw;
      [destruct (openable w directory) eqn:Ho | ].
    + unfold writable, openable in *.
      destruct (fs w !! directory) as [ino|] eqn:Hfs; [ | discriminate].
      rewrite Hw, Ho. simpl andb. cbv iota.
      unfold e4crypt_policy_get, get_answer, bind, access, open, ioctl, close,
        LOG, PLOG, ret.
      simpl. rewrite Hfs, Hw. simpl. rewrite Hfs, Ho. simpl.
      rewrite lowest_free_not_minus_one. simpl.
      rewrite lookup_insert_eq, Hfs.
      destruct (ext4_get_policy ino) as [p|]; simpl;
        rewrite lookup_insert_eq; simpl; rewrite ?recognised_fixed_tuple;
        try destruct (bool_decide (fixed_tuple p)); simpl;
        rewrite <- ?app_assoc; simpl;
        (eexists; split; [reflexivity | ]); intros Hr;
        [ contradiction
        | left; find_log
        | right; find_log ].
    + rewrite (e4crypt_policy_get_no_open w directory policy Hw Ho). simpl.
      rewrite <- !app_assoc. simpl.
      eexists; split; [reflexivity | ]. intros _. left.
      find_log.
    + rewrite (e4crypt_policy_get_no_access w directory policy Hw). simpl.
      rewrite <- !app_assoc. simpl.
      eexists; split; [reflexivity | ]. intros _. left.
      find_log.
  - rewrite (e4crypt_policy_get_wrong_length w directory policy _ Hlen).
    eexists; split; [reflexivity | ]. intros _. left.
    find_log.
Qed.

(** The world when [is_dir_empty] has answered, with its trace. *)
Lemma e4crypt_policy_set_guard_trace (w : world) (directory : string)
    (ino : inode) (policy : list char) :
  fs w !! directory = Some ino ->
  i_writable ino = true -> i_openable ino = true -> i_listable ino = true ->
  exists w1 evs1,
    trace w1 = trace w ++ evs1
    /\ fds w1 !! lowest_free (dom (fds w)) = Some directory
    /\ fs w1 !! directory = Some ino
    /\ e4crypt_policy_set directory policy 8 w
       = (let fd := lowest_free (dom (fds w)) in
          if (length (counted (i_entries ino)) <=? 2)%nat then
            (r <- ioctl fd EXT4_IOC_SET_ENCRYPTION_POLICY (set_request policy) ;;
             if negb (r.1 =? 0) then
               PLOG ERROR ("Failed to set encryption policy for " +:+ directory) ;;;
               close fd ;;;
               ret (-1)
             else
               close fd ;;;
               LOG INFO ("Policy for " +:+ directory +:+ " set to "
                         +:+ c_str (policy_to_hex policy (uninit 17 Ascii.zero))) ;;;
               ret 0) w1
          else
            (LOG ERROR ("Can only set policy on an empty directory "
                        +:+ directory) ;;;
             ret (-1)) w1).
Proof.
  intros Hfs Hw Ho Hl.
  unfold e4crypt_policy_set.
  change (negb (8 =? N.of_nat EXT4_KEY_DESCRIPTOR_SIZE)%N) with false.
  cbv iota.
  unfold bind at 1, access. cbv beta zeta. rewrite Hfs, Hw.
  change (negb (0 =? 0)) with false. cbv iota.
  unfold bind at 1, open. cbv beta zeta. simpl fs. rewrite Hfs, Ho.
  rewrite lowest_free_not_minus_one.
  set (fd := lowest_free (dom (fds w))).
  set (w0 := emit (EvOpen _ _ _) _).
  destruct (is_dir_empty_run w0 directory ino Hfs Hl)
    as (w1 & Hrun & Hfs1 & Hfds1 & _ & _).
  destruct (appends_any w0 w1) as (evs0 & Ht0).
  { pose proof (is_dir_empty_appends (fun _ => True) directory w0) as H.
    rewrite Hrun in H. exact H. }
  exists w1, (EvAccess directory W_OK 0 :: EvOpen directory dir_oflags fd :: evs0).
  split; [rewrite Ht0; simpl; rewrite <- !app_assoc; reflexivity | ].
  split; [rewrite Hfds1; simpl; apply lookup_insert_eq | ].
  split; [rewrite Hfs1; exact Hfs | ].
  unfold bind at 1. rewrite Hrun.
  destruct (length (counted (i_entries ino)) <=? 2)%nat; reflexivity.
Qed.

Lemma e4crypt_policy_set_logs (w : world) (directory : string)
    (policy : list char) (policy_length : N) :
  exists evs,
    trace (e4crypt_policy_set directory policy policy_length w).2
    = trace w ++ evs
    /\ ((e4crypt_policy_set directory policy policy_length w).1 = Some (-1) ->
        logged ERROR evs)
    /\ ((e4crypt_policy_set directory policy policy_length w).1 = Some 0 ->
        EvLog INFO ("Policy for " +:+ directory +:+ " set to "
                    +:+ c_str (policy_to_hex policy (uninit 17 Ascii.zero)))
        ∈ evs).
Proof.
  destruct (N.eq_dec policy_length 8%N) as [->|Hlen];
    [ | rewrite (e4crypt_policy_set_wrong_length w directory policy _ Hlen);
        eexists; split; [reflexivity | ];
        split; [intros _; find_log | discriminate]].
  destruct (writable w directory) eqn:Hw;
    [ | rewrite (e4crypt_policy_set_no_access w directory policy Hw); simpl;
        rewrite <- !app_assoc; simpl; eexists; split; [reflexivity | ];
        split; [intros _; find_log | discriminate]].
  destruct (openable w directory) eqn:Ho;
    [ | rewrite (e4crypt_policy_set_no_open w directory policy Hw Ho); simpl;
        rewrite <- !app_assoc; simpl; eexists; split; [reflexivity | ];
        split; [intros _; find_log | discriminate]].
  unfold writable, openable in *.
  destruct (fs w !! directory) as [ino|] eqn:Hfs; [ | discriminate].
  destruct (i_listable ino) eqn:Hl;
    [ | rewrite (e4crypt_policy_set_unlistable w directory policy ino)
          by assumption; simpl; rewrite <- !app_assoc; simpl;
        eexists; split; [reflexivity | split; discriminate]].
  destruct (e4crypt_policy_set_guard_trace w directory ino policy Hfs Hw Ho Hl)
    as (w1 & evs1 & Ht1 & Hfd1 & Hfs1 & Hrun).
  rewrite Hrun. cbv zeta.
  destruct (length (counted (i_entries ino)) <=? 2)%nat.
  - unfold bind, ioctl, close, LOG, PLOG, ret. rewrite Hfd1, Hfs1.
    destruct (ext4_process_policy ino (set_request policy)) as [ino'|]; simpl;
      rewrite Hfd1; simpl; rewrite Ht1, <- !app_assoc; simpl;
      (eexists; split; [reflexivity | ]).
    + split; [discriminate | intros _].
      apply elem_of_app. right. apply list_elem_of_In. simpl. auto.
    + split; [intros _; find_log | discriminate].
  - unfold bind, LOG, ret. simpl. rewrite Ht1, <- !app_assoc.
    eexists; split; [reflexivity | ].
    split; [intros _; find_log | discriminate].
Qed.

Lemma e4crypt_policy_ensure_logs (w : world) (directory : string)
    (policy : list char) (policy_length : N) :
  exists evs,
    trace (e4crypt_policy_ensure directory policy policy_length w).2
    = trace w ++ evs
    /\ ((e4crypt_policy_ensure directory policy policy_length w).1 = Some (-1) ->
        logged ERROR evs)
    /\ ((e4crypt_policy_ensure directory policy policy_length w).1 = Some 0 ->
        logged INFO evs).
Proof.
  destruct (N.eq_dec policy_length 8%N) as [->|Hlen];
    [ | rewrite (e4crypt_policy_ensure_wrong_length w directory policy _ Hlen);
        eexists; split; [reflexivity | ];
        split; [intros _; find_log | discriminate]].
  destruct (e4crypt_policy_get_total w directory (uninit 8 x00) 8)
    as (w1 & Hget & _).
  destruct (e4crypt_policy_get_logs w directory (uninit 8 x00) 8)
    as (evs_g & Htg & _).
  rewrite Hget in Htg. simpl in Htg.
  destruct (get_result w directory (uninit 8 x00) 8) as [r existing].
  rewrite (e4crypt_policy_ensure_after_get _ _ _ _ _ _ Hget).
  destruct (r =? 0).
  - destruct (memcmp policy existing 8 =? 0); simpl; rewrite Htg, <- app_assoc;
      (eexists; split; [reflexivity | ]);
      (split; [ | ]); first [discriminate | intros _];
      apply logged_app_r; unfold matches_line, conflict_line; find_log.
  - destruct (e4crypt_policy_set_logs w1 directory policy 8)
      as (evs_s & Hts & Herr & Hinfo).
    exists (evs_g ++ evs_s). rewrite Hts, Htg, <- app_assoc.
    split; [reflexivity | ].
    split; intros H; apply logged_app_r; [exact (Herr H) | ].
    eexists. left. exact (Hinfo H).
Qed.

End Logging.

(** X14: no call fails silently.  Whenever [e4crypt_policy_set] or
    [e4crypt_policy_ensure] returns -1 the call has written a log line of
    severity ERROR, and whenever [e4crypt_policy_get] returns anything but
    0 it has written one of severity ERROR or WARNING; a 0 from
    [e4crypt_policy_set] comes with the INFO line that shows the descriptor
    in hexadecimal, and a 0 from [e4crypt_policy_ensure] with an INFO
    line. *)
Theorem failures_are_logged (w : world) (directory : string)
    (policy : list char) (policy_length : N) :
  (exists evs,
     trace (e4crypt_policy_set directory policy policy_length w).2
     = trace w ++ evs
     /\ ((e4crypt_policy_set directory policy policy_length w).1 = Some (-1) ->
         logged ERROR evs)
     /\ ((e4crypt_policy_set directory policy policy_length w).1 = Some 0 ->
         EvLog INFO ("Policy for " +:+ directory +:+ " set to "
                     +:+ c_str (policy_to_hex policy (uninit 17 Ascii.zero)))
         ∈ evs))
  /\ (exists evs,
     trace (e4crypt_policy_get directory policy policy_length w).2
     = trace w ++ evs
     /\ (forall r out,
           (e4crypt_policy_get directory policy policy_length w).1
           = Some (r, out) ->
           r <> 0 -> logged ERROR evs \/ logged WARNING evs))
  /\ (exists evs,
     trace (e4crypt_policy_ensure directory policy policy_length w).2
     = trace w ++ evs
     /\ ((e4crypt_policy_ensure directory policy policy_length w).1
         = Some (-1) -> logged ERROR evs)
     /\ ((e4crypt_policy_ensure directory policy policy_length w).1 = Some 0 ->
         logged INFO evs)).
Proof.
  split; [apply e4crypt_policy_set_logs | ].
  split; [ | apply e4crypt_policy_ensure_logs].
  destruct (e4crypt_policy_get_logs w directory policy policy_length)
    as (evs & Ht & Hlog).
  exists evs. split; [exact Ht | ].
  intros r out Hrun Hr. apply Hlog.
  destruct (e4crypt_policy_get_total w directory policy policy_length)
    as (w' & Hget & _).
  rewrite Hget in Hrun. simpl in Hrun. injection Hrun as ->. exact Hr.
Qed.
